(** * gods: a status-line aggregator for dwm

    Shallow embedding of [gods.go] and the properties of its rate
    formatter, samplers and tick loop.

    Conventions of the embedding:
    - a Go [string] is a Rocq [string], one [ascii] per byte, so [length]
      is Go's [len];
    - a Go [int] is a [Z] kept in the 64-bit two's complement range by
      [Int.wrap] wherever the source adds, subtracts or multiplies;
    - a Go [float64] or [float32] is a [spec_float] of the binary64 or
      binary32 format, with the correctly rounded operations of
      [SpecFloat];
    - a file or a command is what the sampler gets back from the operating
      system: [None] when [os.Open], [ioutil.ReadFile] or
      [exec.Command(...).Output()] return an error, [Some] of the content
      otherwise;
    - a sampler that can index a slice out of range returns a [result]:
      [Ret s] for a returned string, [Panic] for the run-time panic. *)

From Stdlib Require Import ZArith Lia List Bool Ascii String.
From Stdlib Require Import SpecFloat.
From Stdlib Require Import Permutation.
Import ListNotations.

Local Open Scope string_scope.
Local Open Scope Z_scope.

(** ** Go's [int] on a 64-bit platform *)

Module Int.

Definition min_int : Z := - 2 ^ 63.
Definition max_int : Z := 2 ^ 63 - 1.

Definition in_range (z : Z) : Prop := min_int <= z <= max_int.

(** Two's complement wrap-around of an exact result. *)
Definition wrap (z : Z) : Z := (z + 2 ^ 63) mod 2 ^ 64 - 2 ^ 63.

Definition add (a b : Z) : Z := wrap (a + b).
Definition sub (a b : Z) : Z := wrap (a - b).
Definition mul (a b : Z) : Z := wrap (a * b).

(** Go's [/] and [%] truncate towards zero. *)
Definition div (a b : Z) : Z := wrap (Z.quot a b).
Definition rem (a b : Z) : Z := Z.rem a b.

End Int.

(** ** The parts of [strings] the program uses *)

Module Strings.

(** [strip_prefix p s] is the rest of [s] after its prefix [p]. *)
Fixpoint strip_prefix (p s : string) : option string :=
  match p with
  | EmptyString => Some s
  | String a p' =>
      match s with
      | EmptyString => None
      | String b s' => if Ascii.eqb a b then strip_prefix p' s' else None
      end
  end.

Definition HasPrefix (s p : string) : bool :=
  match strip_prefix p s with Some _ => true | None => false end.

(** [strings.Replace(s, old, new, 1)]: the first instance of [old]. *)
Fixpoint Replace1 (s old new : string) : string :=
  match strip_prefix old s with
  | Some rest => new ++ rest
  | None =>
      match s with
      | EmptyString => EmptyString
      | String c s' => String c (Replace1 s' old new)
      end
  end.

(** [strings.Join(elems, sep)]. *)
Fixpoint Join (elems : list string) (sep : string) : string :=
  match elems with
  | [] => ""
  | [e] => e
  | e :: rest => e ++ sep ++ Join rest sep
  end.

(** [strings.Contains(s, sub)]. *)
Fixpoint Contains (s sub : string) : bool :=
  match strip_prefix sub s with
  | Some _ => true
  | None =>
      match s with
      | EmptyString => false
      | String _ s' => Contains s' sub
      end
  end.

(** [strings.HasSuffix(s, suf)]. *)
Fixpoint HasSuffix (s suf : string) : bool :=
  if String.eqb s suf then true
  else match s with
       | EmptyString => false
       | String _ s' => HasSuffix s' suf
       end.

(** White space below U+0080, as [unicode.IsSpace] sees it: tab, line
    feed, vertical tab, form feed, carriage return and space. *)
Definition is_space (c : ascii) : bool :=
  let n := N_of_ascii c in
  ((9 <=? n) && (n <=? 13) || (n =? 32))%N.

Fixpoint trim_left (f : ascii -> bool) (s : string) : string :=
  match s with
  | EmptyString => EmptyString
  | String c s' => if f c then trim_left f s' else s
  end.

Fixpoint trim_right (f : ascii -> bool) (s : string) : string :=
  match s with
  | EmptyString => EmptyString
  | String c s' =>
      match trim_right f s' with
      | EmptyString => if f c then EmptyString else String c EmptyString
      | r => String c r
      end
  end.

(** [strings.Trim(s, cutset)] for a cutset of bytes. *)
Definition Trim (s cutset : string) : string :=
  let cut c := existsb (Ascii.eqb c) (list_ascii_of_string cutset) in
  trim_right cut (trim_left cut s).

(** The string of the given bytes. *)
Definition bytes (l : list N) : string :=
  string_of_list_ascii (map ascii_of_N l).

(** The UTF-8 encodings of the runes for which [unicode.IsSpace] holds:
    the six of ASCII, U+0085, U+00A0, U+1680, U+2000 to U+200A, U+2028,
    U+2029, U+202F, U+205F and U+3000.  No encoding is a prefix or a
    suffix of another. *)
Definition space_runes : list string :=
  map bytes
    [[9]; [10]; [11]; [12]; [13]; [32];
     [0xc2; 0x85]; [0xc2; 0xa0]; [0xe1; 0x9a; 0x80];
     [0xe2; 0x80; 0x80]; [0xe2; 0x80; 0x81]; [0xe2; 0x80; 0x82];
     [0xe2; 0x80; 0x83]; [0xe2; 0x80; 0x84]; [0xe2; 0x80; 0x85];
     [0xe2; 0x80; 0x86]; [0xe2; 0x80; 0x87]; [0xe2; 0x80; 0x88];
     [0xe2; 0x80; 0x89]; [0xe2; 0x80; 0x8a]; [0xe2; 0x80; 0xa8];
     [0xe2; 0x80; 0xa9]; [0xe2; 0x80; 0xaf]; [0xe2; 0x81; 0x9f];
     [0xe3; 0x80; 0x80]]%N.

(** [strip_suffix suf s] is what comes before the suffix [suf] of [s]. *)
Fixpoint strip_suffix (suf s : string) : option string :=
  if String.eqb s suf then Some EmptyString
  else
    match s with
    | EmptyString => None
    | String c s' =>
        match strip_suffix suf s' with
        | Some r => Some (String c r)
        | None => None
        end
    end.

(** [s] without the first of the strings [l] it starts with, or ends
    with. *)
Fixpoint first_prefix (l : list string) (s : string) : option string :=
  match l with
  | [] => None
  | p :: l' =>
      match strip_prefix p s with
      | Some r => Some r
      | None => first_prefix l' s
      end
  end.

Fixpoint first_suffix (l : list string) (s : string) : option string :=
  match l with
  | [] => None
  | p :: l' =>
      match strip_suffix p s with
      | Some r => Some r
      | None => first_suffix l' s
      end
  end.

(** [strings.TrimLeftFunc(s, unicode.IsSpace)]: the runes are decoded from
    the left, and a rune is white space exactly when the bytes at hand
    start with one of [space_runes]; what does not decode is no white
    space.  Every step takes a byte at least, so the length is fuel
    enough. *)
Fixpoint trim_left_space (fuel : nat) (s : string) : string :=
  match fuel with
  | O => s
  | S fuel' =>
      match first_prefix space_runes s with
      | Some rest => trim_left_space fuel' rest
      | None => s
      end
  end.

(** [strings.TrimRightFunc(s, unicode.IsSpace)]: the last rune is decoded
    from the right, and is white space exactly when the bytes end with one
    of [space_runes]. *)
Fixpoint trim_right_space (fuel : nat) (s : string) : string :=
  match fuel with
  | O => s
  | S fuel' =>
      match first_suffix space_runes s with
      | Some rest => trim_right_space fuel' rest
      | None => s
      end
  end.

(** [strings.TrimSpace(s)]: the white space of Unicode is taken away at
    both ends.  The loops over ASCII that the source of the library runs
    first give the same result. *)
Definition TrimSpace (s : string) : string :=
  let s1 := trim_left_space (String.length s) s in
  trim_right_space (String.length s1) s1.

End Strings.

(** ** The verbs of [fmt.Sprintf] the program uses on integers *)

Module Fmt.

(** ['0' + d] for a decimal digit [d]. *)
Definition digit_char (d : Z) : ascii := ascii_of_nat (48 + Z.to_nat d).

(** Decimal digits of a non-negative number, most significant first,
    produced from the least significant end as [strconv] does. *)
Fixpoint utoa_aux (fuel : nat) (n : Z) (acc : string) : string :=
  match fuel with
  | O => acc
  | S fuel' =>
      let acc' := String (digit_char (n mod 10)) acc in
      if n <? 10 then acc' else utoa_aux fuel' (n / 10) acc'
  end.

Definition utoa (n : Z) : string :=
  utoa_aux (S (Z.to_nat (Z.log2 n))) n "".

(** [%d]. *)
Definition itoa (n : Z) : string :=
  if n <? 0 then "-" ++ utoa (- n) else utoa n.

Fixpoint spaces (k : nat) : string :=
  match k with
  | O => ""
  | S k' => String " " (spaces k')
  end.

(** Right-justification in a field of width [w]: [%wd], [%ws]. *)
Definition pad_left (w : nat) (s : string) : string :=
  spaces (w - String.length s) ++ s.

(** [%wd]. *)
Definition d (w : nat) (n : Z) : string := pad_left w (itoa n).

(** [%s %s] and the like are plain concatenation; [%3d%%] is [d 3 n]
    followed by a percent sign. *)

Definition digit_val (c : ascii) : option Z :=
  let n := Z.of_N (N_of_ascii c) in
  if (48 <=? n) && (n <=? 57) then Some (n - 48) else None.

Fixpoint parse_digits (s : string) (acc : Z) : option Z :=
  match s with
  | EmptyString => Some acc
  | String c s' =>
      match digit_val c with
      | Some v => parse_digits s' (10 * acc + v)
      | None => None
      end
  end.

(** [strconv.Atoi]: an optional sign and decimal digits; [None] stands for
    the syntax and range errors. *)
Definition Atoi (s : string) : option Z :=
  let '(neg, body) :=
    match s with
    | String c r =>
        if Ascii.eqb c "-" then (true, r)
        else if Ascii.eqb c "+" then (false, r)
        else (false, s)
    | EmptyString => (false, s)
    end in
  match body with
  | EmptyString => None
  | _ =>
      match parse_digits body 0 with
      | Some n =>
          let v := if neg then - n else n in
          if (Int.min_int <=? v) && (v <=? Int.max_int) then Some v else None
      | None => None
      end
  end.

End Fmt.

(** ** Go's [float64] and [float32]

    Both are IEEE 754 binary formats with round to nearest even, which is
    what [SpecFloat] defines for a precision and an exponent bound. *)

Module Float.

(** Nearest integer to [n * 2 ^ e], ties to even, for [0 <= n]. *)
Definition round_half_even (n e : Z) : Z :=
  if 0 <=? e then n * 2 ^ e
  else
    let dnm := 2 ^ (- e) in
    let q := n / dnm in
    match 2 * (n mod dnm) ?= dnm with
    | Lt => q
    | Eq => if Z.even q then q else q + 1
    | Gt => q + 1
    end.

(** Integer part of [n * 2 ^ e], for [0 <= n]. *)
Definition truncate (n e : Z) : Z :=
  if 0 <=? e then n * 2 ^ e else n / 2 ^ (- e).

(** The conversion [int(x)] as the amd64 instruction [CVTTSD2SQ] does it:
    truncation towards zero, and the smallest [int] for a NaN, an infinity
    or a value out of range (the language leaves those to the
    implementation). *)
Definition to_int (x : spec_float) : Z :=
  match x with
  | S754_zero _ => 0
  | S754_finite s m e =>
      let v := truncate (Zpos m) e in
      let z := if s then - v else v in
      if (Int.min_int <=? z) && (z <=? Int.max_int) then z else Int.min_int
  | _ => Int.min_int
  end.

(** [%.2f]: the exact value rounded to two decimals, ties to even. *)
Definition fmt_f2 (x : spec_float) : string :=
  let sign (s : bool) := if s then "-" else "" in
  let body (q : Z) :=
    Fmt.utoa (q / 100) ++ "."
      ++ String (Fmt.digit_char (q mod 100 / 10))
           (String (Fmt.digit_char (q mod 10)) "") in
  match x with
  | S754_nan => "NaN"
  | S754_infinity false => "+Inf"
  | S754_infinity true => "-Inf"
  | S754_zero s => sign s ++ body 0
  | S754_finite s m e => sign s ++ body (round_half_even (Zpos m * 100) e)
  end.

End Float.

Module F64.
Definition prec : Z := 53.
Definition emax : Z := 1024.
Definition zero : spec_float := S754_zero false.
(** [float64(n)] for an integer [n]. *)
Definition of_int (n : Z) : spec_float := binary_normalize prec emax n 0 false.
Definition add : spec_float -> spec_float -> spec_float := SFadd prec emax.
Definition sub : spec_float -> spec_float -> spec_float := SFsub prec emax.
Definition mul : spec_float -> spec_float -> spec_float := SFmul prec emax.
Definition div : spec_float -> spec_float -> spec_float := SFdiv prec emax.
End F64.

Module F32.
Definition prec : Z := 24.
Definition emax : Z := 128.
(** [float32(n)] for an integer [n]. *)
Definition of_int (n : Z) : spec_float := binary_normalize prec emax n 0 false.
Definition mul : spec_float -> spec_float -> spec_float := SFmul prec emax.
Definition div : spec_float -> spec_float -> spec_float := SFdiv prec emax.
End F32.

(** ** The result of a function that can panic *)

Inductive result (A : Type) : Type :=
| Ret (a : A)
| Panic.
Arguments Ret {A} a.
Arguments Panic {A}.

Definition bind {A B : Type} (r : result A) (k : A -> result B) : result B :=
  match r with
  | Ret a => k a
  | Panic => Panic
  end.

Notation "x <- r ;; k" := (bind r (fun x => k))
  (at level 61, r at next level, right associativity).

(** [l[i]] on a slice: a panic when [i] is out of range. *)
Definition index {A : Type} (l : list A) (i : nat) : result A :=
  match nth_error l i with
  | Some a => Ret a
  | None => Panic
  end.

(** [s[0:n]] on a string: a panic when [n] exceeds its length. *)
Definition slice_to (s : string) (n : nat) : result string :=
  if (n <=? String.length s)%nat then Ret (substring 0 n s) else Panic.

(** ** The fragment of [regexp] the program uses

    Go returns the leftmost match and, among those, the one a backtracking
    matcher finds first; [run] is that matcher, in continuation-passing
    style, over bytes.  The three expressions of the program only ever
    compare bytes below U+0080, so matching byte by byte finds the same
    boundaries as matching rune by rune. *)

Module Regexp.

Inductive re : Type :=
| Eps
| Chr (c : ascii)
| Any (s : bool)
| Digit
| Seq (r1 r2 : re)
| Alt (r1 r2 : re)
| Star (r : re)
| Group (i : nat) (r : re).

Definition caps : Type := list (nat * string).

Definition is_digit (c : ascii) : bool :=
  let n := N_of_ascii c in ((48 <=? n) && (n <=? 57))%N.

Definition newline : ascii := ascii_of_N 10.

(** What was consumed between the input [s] and its suffix [s']. *)
Definition consumed (s s' : string) : string :=
  substring 0 (String.length s - String.length s') s.

Fixpoint run {A : Type} (r : re) (s : string) (cs : caps)
    (k : string -> caps -> option A) {struct r} : option A :=
  match r with
  | Eps => k s cs
  | Chr c =>
      match s with
      | String x s' => if Ascii.eqb x c then k s' cs else None
      | EmptyString => None
      end
  | Any fl =>
      match s with
      | String x s' =>
          if fl || negb (Ascii.eqb x newline) then k s' cs else None
      | EmptyString => None
      end
  | Digit =>
      match s with
      | String x s' => if is_digit x then k s' cs else None
      | EmptyString => None
      end
  | Seq r1 r2 => run r1 s cs (fun s' cs' => run r2 s' cs' k)
  | Alt r1 r2 =>
      match run r1 s cs k with
      | Some a => Some a
      | None => run r2 s cs k
      end
  | Star r' =>
      (fix loop (fuel : nat) (s : string) (cs : caps) {struct fuel} :=
         match fuel with
         | O => k s cs
         | S fuel' =>
             match
               run r' s cs
                 (fun s' cs' =>
                    if (String.length s' <? String.length s)%nat
                    then loop fuel' s' cs' else None)
             with
             | Some a => Some a
             | None => k s cs
             end
         end) (String.length s) s cs
  | Group i r' =>
      run r' s cs (fun s' cs' => k s' ((i, consumed s s') :: cs'))
  end.

(** The leftmost match: the first start at which [run] succeeds. *)
Fixpoint search (r : re) (s : string) : option (string * caps) :=
  match run r s [] (fun s' cs => Some (consumed s s', cs)) with
  | Some m => Some m
  | None =>
      match s with
      | String _ s' => search r s'
      | EmptyString => None
      end
  end.

Fixpoint group (cs : caps) (i : nat) : string :=
  match cs with
  | [] => ""
  | (j, g) :: cs' => if Nat.eqb i j then g else group cs' i
  end.

(** [re.FindStringSubmatch(s)] for an expression with [n] groups: [nil]
    without a match, the match and the [n] groups with one. *)
Definition FindStringSubmatch (r : re) (n : nat) (s : string) : list string :=
  match search r s with
  | None => []
  | Some (whole, cs) => whole :: map (group cs) (seq 1 n)
  end.

Fixpoint lit (s : string) : re :=
  match s with
  | EmptyString => Eps
  | String c s' => Seq (Chr c) (lit s')
  end.

Fixpoint cat (rs : list re) : re :=
  match rs with
  | [] => Eps
  | [r] => r
  | r :: rs' => Seq r (cat rs')
  end.

End Regexp.

(** ** The fragment of [time] the tick loop uses

    A [Time] is a wall clock instant: the seconds since January 1 of
    year 1 and the nanoseconds within the second.  The monotonic reading
    that [time.Now] attaches plays no part: [Truncate] strips it, and
    [Sub] falls back on the wall clock when one side has none.  A
    [Duration] is an [int64] count of nanoseconds. *)

Module Time.

Record Time : Type := mkTime { sec : Z; nsec : Z }.

Definition Second : Z := 1000000000.
Definition minDuration : Z := Int.min_int.
Definition maxDuration : Z := Int.max_int.

Definition wf (t : Time) : Prop := 0 <= nsec t < Second.

Definition Equal (t u : Time) : bool :=
  (sec t =? sec u) && (nsec t =? nsec u).

Definition Before (t u : Time) : bool :=
  (sec t <? sec u) || ((sec t =? sec u) && (nsec t <? nsec u)).

(** [addSec]: the seconds saturate instead of wrapping around. *)
Definition addSec (t : Time) (d : Z) : Time :=
  let sum := Int.add (sec t) d in
  if Bool.eqb (sum >? sec t) (d >? 0) then mkTime sum (nsec t)
  else if d >? 0 then mkTime Int.max_int (nsec t)
  else mkTime (- Int.max_int) (nsec t).

(** [t.Add(d)]. *)
Definition Add (t : Time) (d : Z) : Time :=
  let dsec := Z.quot d 1000000000 in
  let nsec := nsec t + Z.rem d 1000000000 in
  let '(dsec, nsec) :=
    if nsec >=? 1000000000 then (dsec + 1, nsec - 1000000000)
    else if nsec <? 0 then (dsec - 1, nsec + 1000000000)
    else (dsec, nsec) in
  addSec (mkTime (sec t) nsec) dsec.

(** The remainder that [div(t, d)] computes: [t] modulo [d], counted from
    the zero time and never negative. *)
Definition div_rem (t : Time) (d : Z) : Z :=
  let '(neg, sec, nsec) :=
    if sec t <? 0 then
      let sec := - sec t in
      let nsec := - nsec t in
      if nsec <? 0 then (true, sec - 1, nsec + 1000000000)
      else (true, sec, nsec)
    else (false, sec t, nsec t) in
  let r :=
    if (d <? Second) && (Z.rem Second (d + d) =? 0) then Z.rem nsec d
    else if Z.rem d Second =? 0 then
      let d1 := Z.quot d Second in
      Z.rem sec d1 * Second + nsec
    else (sec * 1000000000 + nsec) mod d in
  if neg && negb (r =? 0) then d - r else r.

(** [t.Truncate(d)]. *)
Definition Truncate (t : Time) (d : Z) : Time :=
  if d <=? 0 then t else Add t (- div_rem t d).

(** [t.Sub(u)], on the wall clock. *)
Definition Sub (t u : Time) : Z :=
  let d :=
    Int.add (Int.mul (Int.sub (sec t) (sec u)) Second) (nsec t - nsec u) in
  if Equal (Add u d) t then d
  else if Before t u then minDuration
  else maxDuration.

End Time.

(** ** Constants of the program *)

Definition bpsSign : string := "b".
Definition kibpsSign : string := "K".
Definition mibpsSign : string := "M".

Definition batterySign100 : string := Strings.bytes [0xef; 0x89; 0x80]%N.
Definition batterySign75 : string := Strings.bytes [0xef; 0x89; 0x81]%N.
Definition batterySign50 : string := Strings.bytes [0xef; 0x89; 0x82]%N.
Definition batterySign25 : string := Strings.bytes [0xef; 0x89; 0x83]%N.
Definition batterySign10 : string := Strings.bytes [0xef; 0x89; 0x84]%N.
Definition pluggedSign : string := Strings.bytes [0xef; 0x92; 0x92]%N.

Definition cpuSign : string := Strings.bytes [0xee; 0x88; 0xb4]%N.
Definition cpuTempSign : string := Strings.bytes [0xef; 0x8b; 0x89]%N.
Definition memSign : string := Strings.bytes [0xef; 0x8b; 0x9b]%N.

Definition netReceivedSign : string := Strings.bytes [0xe2; 0xae; 0xae]%N.
Definition netTransmittedSign : string := Strings.bytes [0xe2; 0xae; 0xad]%N.
Definition pingSign : string := Strings.bytes [0xe2; 0xad; 0xbf]%N.

Definition volSign : string := Strings.bytes [0xef; 0x80; 0xa8]%N.
Definition mutedSign : string := Strings.bytes [0xef; 0x91; 0xa6]%N.

Definition wifiSignFull : string :=
  Strings.bytes [0xef; 0x87; 0xab; 0xe2; 0xa1; 0x86]%N.
Definition wifiSignHalf : string :=
  Strings.bytes [0xef; 0x87; 0xab; 0xe2; 0xa1; 0x84]%N.
Definition wifiSignLow : string :=
  Strings.bytes [0xef; 0x87; 0xab; 0xe2; 0xa1; 0x80]%N.
Definition wifiSignOff : string :=
  Strings.bytes [0xef; 0x87; 0xab; 0xe2; 0xa8; 0xaf]%N.

Definition keyboardSign : string := Strings.bytes [0xef; 0x84; 0x9c]%N.

Definition floatSeparator : string := ".".
Definition dateSeparator : string := Strings.bytes [0xef; 0x80; 0x97]%N.
Definition fieldSeparator : string := " ".

(** Literals of the function bodies that are not plain ASCII. *)
Definition chargedSign : string := Strings.bytes [0xef; 0x84; 0xaa]%N.
Definition degreeSign : string := Strings.bytes [0xc2; 0xb0]%N.
Definition distroSignDefault : string := Strings.bytes [0xee; 0x9c; 0x92]%N.
Definition distroSignArch : string := Strings.bytes [0xef; 0x8c; 0x80]%N.
Definition distroSignSlack : string := Strings.bytes [0xef; 0x8c; 0x8a]%N.

Definition nl : string := String Regexp.newline "".

Definition netDevs : list string :=
  ["eth0:"; "eth1:"; "wlan0:"; "ppp0:"; "wlp4s0:"].

(** [_, ok := netDevs[dev]]. *)
Definition netDevs_has (dev : string) : bool :=
  existsb (String.eqb dev) netDevs.

(** ** The rate formatter *)

(** Lines 96 to 104 of [fixed]: the field of four bytes and the suffix. *)
Definition fixed_format (pre : string) (decDigit rate : Z) (suf : string)
    : string :=
  let formated :=
    if rate >=? 100 then " " ++ Fmt.d 3 rate
    else if rate >=? 10 then Fmt.d 2 rate ++ "." ++ Fmt.d 1 decDigit
    else " " ++ Fmt.d 1 rate ++ "." ++ Fmt.d 1 decDigit in
  pre ++ Strings.Replace1 formated "." floatSeparator ++ suf.

(** [fixed] builds a fixed width string with given pre- and fitting suffix.
    The source only compares and divides [rate], so no operation on it
    can leave the range of [int]. *)
Definition fixed (pre : string) (rate : Z) : string :=
  if rate <? 0 then pre ++ " ERR"
  else if rate >=? 1000 * 1024 * 1024 then pre ++ " ERR"
  else if rate >=? 1000 * 1024 then
    fixed_format pre (Z.rem (Z.quot (Z.quot rate 1024) 102) 10)
      (Z.quot rate (1024 * 1024)) mibpsSign
  else if rate >=? 1000 then
    fixed_format pre (Z.rem (Z.quot rate 102) 10) (Z.quot rate 1024) kibpsSign
  else fixed_format pre 0 rate bpsSign.

(** ** What the program reads *)

(** The calls of [fmt.Sscanf] in the program, one field per format.  The
    samplers are defined over any scanner with this interface; [GoScanf]
    below is the instance that runs. *)
Record Scanf : Type := mkScanf {
  (** ["%s %d %d %d %d %d %d %d %d %d"] into [dev], [rx], seven times
      [void], and [tx]: the operands after the call, given their values
      before it.  An operand scanned before an error has its new value,
      the others keep the old one. *)
  scan_net : string -> string * Z * Z -> string * Z * Z;
  (** ["%f"] into a [float64]; [None] for an error. *)
  scan_f64 : string -> option spec_float;
  (** ["%f"] into a [float32]; [None] for an error. *)
  scan_f32 : string -> option spec_float;
  (** ["%s %f"] into a string and a [float64]; [None] for an error. *)
  scan_s_f64 : string -> option (string * spec_float)
}.

(** The operating system as one tick sees it. *)
Record World : Type := mkWorld {
  (** [ioutil.ReadFile(path)]. *)
  ReadFile : string -> option string;
  (** [os.Open(path)] and the lines a [bufio.Scanner] yields from it. *)
  OpenLines : string -> option (list string);
  (** [ioutil.ReadDir(path)]: the names of the entries. *)
  ReadDir : string -> option (list string);
  (** [exec.Command(name, args...).Output()]. *)
  Output : string -> list string -> option string;
  (** [time.Now().Local().Format(layout)]. *)
  NowFormat : string -> string;
  (** [time.Now()] at the end of the tick. *)
  Now : Time.Time;
  (** [runtime.NumCPU()]. *)
  cores : Z
}.

(** The carried counters [rxOld] and [txOld]. *)
Record NetState : Type := mkNetState { rxOld : Z; txOld : Z }.

Definition initial_state : NetState := mkNetState 0 0.

Section Samplers.

Variable sc : Scanf.
Variable w : World.

(** *** Network *)

(** The loop over the lines of [/proc/net/dev]: the operands of [Sscanf]
    live across the iterations, the device is looked up whatever the scan
    returned. *)
Definition net_step (acc : string * Z * Z * Z * Z) (line : string)
    : string * Z * Z * Z * Z :=
  let '(dev, rx, tx, rxNow, txNow) := acc in
  let '(dev, rx, tx) := scan_net sc line (dev, rx, tx) in
  if netDevs_has dev then (dev, rx, tx, Int.add rxNow rx, Int.add txNow tx)
  else (dev, rx, tx, rxNow, txNow).

(** [rxNow] and [txNow] after the loop. *)
Definition net_totals (lines : list string) : Z * Z :=
  let '(_, _, _, rxNow, txNow) := fold_left net_step lines ("", 0, 0, 0, 0) in
  (rxNow, txNow).

Definition net_ping : string :=
  match ReadFile w "/home/john/tmp/avgping" with
  | None => ""
  | Some avgping =>
      match scan_f64 sc avgping with
      | None => " " ++ pingSign ++ "0.0ms"
      | Some pingAvg =>
          " " ++ pingSign ++ " " ++ Fmt.itoa (Float.to_int pingAvg) ++ "ms"
      end
  end.

(** [updateNetUse] reads current transfer rates of certain network
    interfaces.  The deferred assignment to [rxOld] and [txOld] runs after
    the returned string is built. *)
Definition updateNetUse (st : NetState) : string * NetState :=
  match OpenLines w "/proc/net/dev" with
  | None =>
      (netReceivedSign ++ " ERR " ++ netTransmittedSign ++ " ERR", st)
  | Some lines =>
      let '(rxNow, txNow) := net_totals lines in
      (fixed netReceivedSign (Int.sub rxNow (rxOld st)) ++ " "
         ++ fixed netTransmittedSign (Int.sub txNow (txOld st)) ++ net_ping,
       mkNetState rxNow txNow)
  end.

(** *** Battery *)

Definition powerSupply : string := "/sys/class/power_supply/".

Definition readval (name field : string) : Z :=
  let path := powerSupply ++ name ++ "/" in
  let file :=
    match ReadFile w (path ++ "energy_" ++ field) with
    | Some tmp => Some tmp
    | None => ReadFile w (path ++ "charge_" ++ field)
    end in
  match file with
  | None => 0
  | Some file =>
      match Fmt.Atoi (Strings.TrimSpace file) with
      | Some ret => ret
      | None => 0
      end
  end.

Definition batt_step (acc : Z * Z) (name : string) : Z * Z :=
  let '(enFull, enNow) := acc in
  if negb (Strings.HasPrefix name "BAT") then (enFull, enNow)
  else (Int.add enFull (readval name "full"),
        Int.add enNow (readval name "now")).

(** [enFull] and [enNow] after the loop over the directory. *)
Definition batt_totals (batts : list string) : Z * Z :=
  fold_left batt_step batts (0, 0).

(** [icon] and [icon2] after the chain of tests. *)
Definition power_icons (plugged : string) (enPerc : Z) : string * string :=
  if String.eqb plugged ("1" ++ nl) then
    (pluggedSign, if enPerc <=? 98 then "" else chargedSign)
  else if enPerc <=? 10 then (batterySign10, chargedSign)
  else if enPerc <=? 25 then (batterySign25, chargedSign)
  else if enPerc <=? 50 then (batterySign50, chargedSign)
  else if enPerc <=? 75 then (batterySign75, chargedSign)
  else if enPerc <=? 100 then (batterySign100, "")
  else (batterySign100, chargedSign).

(** [updatePower] reads the current battery and power plug status. *)
Definition updatePower : string :=
  match ReadFile w (powerSupply ++ "AC/online") with
  | None => "|ERR"
  | Some plugged =>
      match ReadDir w powerSupply with
      | None => "|ERR"
      | Some batts =>
          let '(enFull, enNow) := batt_totals batts in
          if enFull =? 0 then "|ERR"
          else
            let enPerc := Int.div (Int.mul enNow 100) enFull in
            let '(icon, icon2) := power_icons plugged enPerc in
            icon ++ icon2 ++ Fmt.d 3 enPerc ++ "%"
      end
  end.

(** *** Time to deplete or charge the battery *)

Definition dd : Regexp.re := Regexp.Seq Regexp.Digit Regexp.Digit.

(** [.*(\d\d:\d\d:\d\d).*] *)
Definition timeRx : Regexp.re :=
  Regexp.cat
    [Regexp.Star (Regexp.Any false);
     Regexp.Group 1
       (Regexp.cat [dd; Regexp.Chr ":"; dd; Regexp.Chr ":"; dd]);
     Regexp.Star (Regexp.Any false)].

(** [updatePowerTime] runs [acpi -b] to get the time to deplete or to
    charge the battery. *)
Definition updatePowerTime : result string :=
  match Output w "acpi" ["-b"] with
  | None => Ret "unknown"
  | Some acpi =>
      let acpiMatch := Regexp.FindStringSubmatch timeRx 1 acpi in
      if (List.length acpiMatch =? 1)%nat then Ret "unknown"
      else
        g <- index acpiMatch 1 ;;
        slice_to g 5
  end.

(** *** Processor load *)

(** [updateCPUUse] reads the last minute sysload and scales it to the
    core count, in [float32] arithmetic. *)
Definition updateCPUUse : string :=
  match ReadFile w "/proc/loadavg" with
  | None => cpuSign ++ "ERR"
  | Some loadavg =>
      match scan_f32 sc loadavg with
      | None => cpuSign ++ "ERR"
      | Some load =>
          cpuSign
            ++ Fmt.d 3
                 (Float.to_int
                    (F32.div (F32.mul load (F32.of_int 100))
                       (F32.of_int (cores w))))
            ++ "%"
      end
  end.

(** *** Memory *)

(** The loop of [updateMemUse]: [None] when a line does not scan,
    [used] and [total] once [done] is 15 or the lines are exhausted. *)
Fixpoint mem_loop (lines : list string) (used total : spec_float) (done : Z)
    : option (spec_float * spec_float) :=
  if done =? 15 then Some (used, total)
  else
    match lines with
    | [] => Some (used, total)
    | line :: rest =>
        match scan_s_f64 sc line with
        | None => None
        | Some (prop, val) =>
            if String.eqb prop "MemTotal:" then
              mem_loop rest (F64.add used val) val (Z.lor done 1)
            else if String.eqb prop "MemFree:" then
              mem_loop rest (F64.sub used val) total (Z.lor done 2)
            else if String.eqb prop "Buffers:" then
              mem_loop rest (F64.sub used val) total (Z.lor done 4)
            else if String.eqb prop "Cached:" then
              mem_loop rest (F64.sub used val) total (Z.lor done 8)
            else mem_loop rest used total done
        end
    end.

(** The last three lines of [updateMemUse]. *)
Definition mem_format (used total : spec_float) : string :=
  let used := F64.div (F64.div used (F64.of_int 1024)) (F64.of_int 1024) in
  let total := F64.div (F64.div total (F64.of_int 1024)) (F64.of_int 1024) in
  memSign ++ " " ++ Float.fmt_f2 used ++ "/" ++ Float.fmt_f2 total ++ "GB".

(** [updateMemUse] reads the memory used by applications. *)
Definition updateMemUse : string :=
  match OpenLines w "/proc/meminfo" with
  | None => memSign ++ "ERR"
  | Some lines =>
      match mem_loop lines F64.zero F64.zero 0 with
      | None => memSign ++ "ERR"
      | Some (used, total) => mem_format used total
      end
  end.

(** *** Volume *)

(** [(?s).*volume: front-left: .* (\d*%) /.*front-right: .* (\d*%).*muted: (yes|no).*] *)
Definition mutedRx : Regexp.re :=
  let any := Regexp.Star (Regexp.Any true) in
  let perc (i : nat) :=
    Regexp.Group i (Regexp.Seq (Regexp.Star Regexp.Digit) (Regexp.Chr "%")) in
  Regexp.cat
    [any; Regexp.lit "volume: front-left: "; any; Regexp.Chr " "; perc 1%nat;
     Regexp.lit " /"; any; Regexp.lit "front-right: "; any; Regexp.Chr " ";
     perc 2%nat; any; Regexp.lit "muted: ";
     Regexp.Group 3 (Regexp.Alt (Regexp.lit "yes") (Regexp.lit "no")); any].

Definition updateVolume : result string :=
  match Output w "pacmd" ["list-sinks"] with
  | None => Ret (mutedSign ++ " ERR")
  | Some pacmd =>
      let pacmdMatch := Regexp.FindStringSubmatch mutedRx 3 pacmd in
      m3 <- index pacmdMatch 3 ;;
      let sign := if String.eqb m3 "yes" then mutedSign else volSign in
      m1 <- index pacmdMatch 1 ;;
      Ret (sign ++ " " ++ m1)
  end.

(** *** Wifi *)

Definition awkProgram : string :=
  "NR==3 {printf " ++ String (ascii_of_N 34) "%3.0f"
    ++ String (ascii_of_N 34) " ,($3/70)*100}".

Definition updateWifi : string :=
  match Output w "awk" [awkProgram; "/proc/net/wireless"] with
  | None => wifiSignOff ++ " ERR"
  | Some out =>
      let strength := Strings.Trim out " " in
      if negb (String.eqb strength "") then
        match Fmt.Atoi strength with
        | None => wifiSignOff ++ " ERR"
        | Some strengthInt =>
            let wifiSign :=
              if strengthInt >? 70 then wifiSignFull
              else if strengthInt >? 50 then wifiSignHalf
              else if strengthInt >? 20 then wifiSignLow
              else wifiSignOff in
            if strengthInt >=? 100 then wifiSign ++ "" ++ strength ++ "%"
            else if strengthInt >=? 10 then wifiSign ++ " " ++ strength ++ "%"
            else wifiSign ++ "  " ++ strength ++ "%"
        end
      else wifiSignOff ++ " 0%"
  end.

(** *** Temperature, keyboard, distribution *)

Definition updateCPUTemp : string :=
  match OpenLines w "/sys/class/thermal/thermal_zone1/temp" with
  | None => cpuTempSign ++ " ERR"
  | Some lines =>
      let tempStr := fold_left (fun _ line => line) lines " ERR" in
      match Fmt.Atoi tempStr with
      | None => cpuTempSign ++ " ERR"
      | Some temp =>
          let temp := Int.div temp 1000 in
          cpuTempSign ++ " " ++ Fmt.itoa temp ++ degreeSign ++ "C"
      end
  end.

Definition updateKeyboard : string :=
  match OpenLines w "/home/john/.config/xmodmap_switcher/state" with
  | None => keyboardSign ++ " default"
  | Some lines =>
      let keyboard := fold_left (fun _ line => line) lines "default" in
      keyboardSign ++ " " ++ keyboard
  end.

(** [.*(arch|slack).*] *)
Definition distroRx : Regexp.re :=
  Regexp.cat
    [Regexp.Star (Regexp.Any false);
     Regexp.Group 1 (Regexp.Alt (Regexp.lit "arch") (Regexp.lit "slack"));
     Regexp.Star (Regexp.Any false)].

Definition getDistroSign : result string :=
  match Output w "uname" ["-a"] with
  | None => Ret distroSignDefault
  | Some uname =>
      let distroMatch := Regexp.FindStringSubmatch distroRx 1 uname in
      if (List.length distroMatch =? 1)%nat then Ret distroSignDefault
      else
        m1 <- index distroMatch 1 ;;
        if String.eqb m1 "arch" then Ret distroSignArch
        else if String.eqb m1 "slack" then Ret distroSignSlack
        else Ret distroSignDefault
  end.

(** *** The tick loop *)

(** What one round of the loop of [main] leaves behind: the line handed to
    [xsetroot -name], the carried counters, and the argument of
    [time.Sleep]. *)
Record Tick : Type := mkTick {
  line : string;
  state : NetState;
  sleep : Z
}.

(** [now.Truncate(time.Second).Add(time.Second).Sub(now)] *)
Definition sleep_duration (now : Time.Time) : Z :=
  Time.Sub (Time.Add (Time.Truncate now Time.Second) Time.Second) now.

(** The twelve fragments, evaluated in the order of the slice literal. *)
Definition status (distroSign : string) (st : NetState)
    : result (list string * NetState) :=
  volume <- updateVolume ;;
  let wifi := updateWifi in
  let '(net, st') := updateNetUse st in
  let cpu := updateCPUUse in
  let temp := updateCPUTemp in
  let mem := updateMemUse in
  let power := updatePower in
  powerTime <- updatePowerTime ;;
  let date := NowFormat w (dateSeparator ++ " Mon Jan 02 15:04") in
  let keyboard := updateKeyboard in
  Ret (["" ; volume; wifi; net; cpu; temp; mem; power; powerTime; date;
        keyboard; distroSign], st').

(** One round of the loop of [main]. *)
Definition tick (distroSign : string) (st : NetState) : result Tick :=
  r <- status distroSign st ;;
  let '(fragments, st') := r in
  Ret (mkTick (Strings.Join fragments fieldSeparator) st'
         (sleep_duration (Now w))).

End Samplers.

(** ** A scanner that runs

    [fmt.Sscanf] on the inputs the examples below use: operands separated
    by blanks, integers in decimal, floating-point numbers as an optional
    sign, decimal digits and an optional fraction.  Go scans more than
    that for [%f] (an exponent, a hexadecimal mantissa, underscores, the
    words inf and nan); this instance reports an error for those, so it
    stands for [Sscanf] only on inputs without them. *)

Module GoScanf.

(** [SkipSpace] within a line: a line feed is not skipped. *)
Definition is_blank (c : ascii) : bool :=
  Strings.is_space c && negb (Ascii.eqb c Regexp.newline).

(** The longest prefix whose bytes satisfy [f], and the rest. *)
Fixpoint span (f : ascii -> bool) (s : string) : string * string :=
  match s with
  | EmptyString => ("", "")
  | String c s' =>
      if f c then let '(t, r) := span f s' in (String c t, r)
      else ("", s)
  end.

(** [%s]: the next run of bytes that are not white space. *)
Definition scan_s (s : string) : option (string * string) :=
  let '(t, r) :=
    span (fun c => negb (Strings.is_space c)) (Strings.trim_left is_blank s) in
  match t with
  | EmptyString => None
  | _ => Some (t, r)
  end.

Definition accept_sign (s : string) : bool * string :=
  match s with
  | String c r =>
      if Ascii.eqb c "-" then (true, r)
      else if Ascii.eqb c "+" then (false, r)
      else (false, s)
  | EmptyString => (false, s)
  end.

(** [%d]: a sign, then digits and underscores; [strconv.ParseInt] in base
    10 then refuses the underscores and what does not fit an [int64]. *)
Definition scan_d (s : string) : option (Z * string) :=
  let '(neg, s1) := accept_sign (Strings.trim_left is_blank s) in
  let '(t, r) :=
    span (fun c => Regexp.is_digit c || Ascii.eqb c "_") s1 in
  match t with
  | EmptyString => None
  | _ =>
      match Fmt.parse_digits t 0 with
      | None => None
      | Some n =>
          let v := if neg then - n else n in
          if (Int.min_int <=? v) && (v <=? Int.max_int) then Some (v, r)
          else None
      end
  end.

(** [%f] at precision [prec] and exponent bound [emax]: the decimal
    [n / 10 ^ k] read from the digits, rounded once. *)
Definition scan_f (prec emax : Z) (s : string) : option (spec_float * string) :=
  let '(neg, s1) := accept_sign (Strings.trim_left is_blank s) in
  let '(ip, s2) := span Regexp.is_digit s1 in
  let '(fp, s3) :=
    match s2 with
    | String c r => if Ascii.eqb c "." then span Regexp.is_digit r else ("", s2)
    | EmptyString => ("", s2)
    end in
  let outside :=
    match s3 with
    | String c _ =>
        existsb (Ascii.eqb c) (list_ascii_of_string "eEpPxX_")
    | EmptyString => false
    end in
  if outside then None
  else
    match ip ++ fp with
    | EmptyString => None
    | digits =>
        match Fmt.parse_digits digits 0 with
        | Some (Zpos m) =>
            let x :=
              SFdiv prec emax (S754_finite neg m 0)
                (S754_finite false
                   (Z.to_pos (10 ^ Z.of_nat (String.length fp))) 0) in
            match x with
            | S754_infinity _ => None
            | _ => Some (x, s3)
            end
        | Some _ => Some (S754_zero neg, s3)
        | None => None
        end
    end.

Fixpoint scan_ints (n : nat) (s : string) : list Z :=
  match n with
  | O => []
  | S n' =>
      match scan_d s with
      | None => []
      | Some (v, r) => v :: scan_ints n' r
      end
  end.

Definition net (ln : string) (ops : string * Z * Z) : string * Z * Z :=
  let '(dev, rx, tx) := ops in
  match scan_s ln with
  | None => (dev, rx, tx)
  | Some (dev', r) =>
      let ints := scan_ints 9 r in
      (dev', nth 0 ints rx, nth 8 ints tx)
  end.

Definition s_f64 (ln : string) : option (string * spec_float) :=
  match scan_s ln with
  | None => None
  | Some (prop, r) =>
      match scan_f F64.prec F64.emax r with
      | None => None
      | Some (val, _) => Some (prop, val)
      end
  end.

Definition instance : Scanf :=
  mkScanf net
    (fun s => option_map fst (scan_f F64.prec F64.emax s))
    (fun s => option_map fst (scan_f F32.prec F32.emax s))
    s_f64.

End GoScanf.

(** ** Reference renderings used to state the properties *)

(** The field of four bytes that [fixed] prints for a scaled rate below
    1000 and a decimal digit. *)
Definition rate_field (rate decDigit : Z) : string :=
  if 100 <=? rate then
    String " " (String (Fmt.digit_char (rate / 100))
      (String (Fmt.digit_char (rate / 10 mod 10))
        (String (Fmt.digit_char (rate mod 10)) "")))
  else if 10 <=? rate then
    String (Fmt.digit_char (rate / 10))
      (String (Fmt.digit_char (rate mod 10))
        (String "." (String (Fmt.digit_char decDigit) "")))
  else
    String " " (String (Fmt.digit_char rate)
      (String "." (String (Fmt.digit_char decDigit) ""))).

(** What [updateMemUse] accumulates from one scanned line, and from all
    of them when the loop is not left early. *)
Definition mem_step (acc : spec_float * spec_float)
    (line : string * spec_float) : spec_float * spec_float :=
  let '(used, total) := acc in
  let '(prop, val) := line in
  if String.eqb prop "MemTotal:" then (F64.add used val, val)
  else if String.eqb prop "MemFree:" then (F64.sub used val, total)
  else if String.eqb prop "Buffers:" then (F64.sub used val, total)
  else if String.eqb prop "Cached:" then (F64.sub used val, total)
  else (used, total).

Definition mem_seen (scanned : list (string * spec_float))
    : spec_float * spec_float :=
  fold_left mem_step scanned (F64.zero, F64.zero).

(** The flag a label sets in [done]. *)
Definition mem_flag (prop : string) : Z :=
  if String.eqb prop "MemTotal:" then 1
  else if String.eqb prop "MemFree:" then 2
  else if String.eqb prop "Buffers:" then 4
  else if String.eqb prop "Cached:" then 8
  else 0.

(** The four labels, by the bit each sets in [done]. *)
Definition mem_label (bit : Z) : string :=
  if bit =? 0 then "MemTotal:"
  else if bit =? 1 then "MemFree:"
  else if bit =? 2 then "Buffers:"
  else "Cached:".

(** ** Worlds used as inputs *)

(** Nothing opens, nothing runs. *)
Definition absent_world : World :=
  mkWorld (fun _ => None) (fun _ => None) (fun _ => None) (fun _ _ => None)
    (fun _ => "Thu Jan 01 00:00") (Time.mkTime 62135596800 0) 1.

(** [w] where the command [name] prints [out]. *)
Definition with_output (w : World) (name : string) (out : string) : World :=
  mkWorld (ReadFile w) (OpenLines w) (ReadDir w)
    (fun n args => if String.eqb n name then Some out else Output w n args)
    (NowFormat w) (Now w) (cores w).

(** [w] where the file [path] opens and has the lines [lines]. *)
Definition with_lines (w : World) (path : string) (lines : list string)
    : World :=
  mkWorld (ReadFile w)
    (fun p => if String.eqb p path then Some lines else OpenLines w p)
    (ReadDir w) (Output w) (NowFormat w) (Now w) (cores w).

(** [w] where the file [path] reads as [content]. *)
Definition with_file (w : World) (path : string) (content : string) : World :=
  mkWorld
    (fun p => if String.eqb p path then Some content else ReadFile w p)
    (OpenLines w) (ReadDir w) (Output w) (NowFormat w) (Now w) (cores w).

(** [w] where the directory [path] lists [names]. *)
Definition with_dir (w : World) (path : string) (names : list string)
    : World :=
  mkWorld (ReadFile w) (OpenLines w)
    (fun p => if String.eqb p path then Some names else ReadDir w p)
    (Output w) (NowFormat w) (Now w) (cores w).

(** The output of [acpi -b] for a battery that neither charges nor
    discharges. *)
Definition acpi_full : string := "Battery 0: Full, 100%" ++ nl.

(** Two batteries, one with energy files and one with charge files, on
    battery power: 5000 in all when full, 2500 now. *)
Definition two_batteries : World :=
  with_file (with_file (with_file (with_file (with_file
    (with_dir absent_world powerSupply ["AC"; "BAT0"; "BAT1"])
    (powerSupply ++ "AC/online") ("0" ++ nl))
    (powerSupply ++ "BAT0/energy_full") ("3000" ++ nl))
    (powerSupply ++ "BAT0/energy_now") ("1500" ++ nl))
    (powerSupply ++ "BAT1/charge_full") ("2000" ++ nl))
    (powerSupply ++ "BAT1/charge_now") ("1000" ++ nl).

(** The four lines of the memory scenario, and the first two of them. *)
Definition meminfo_lines : list string :=
  ["MemTotal: 16000000"; "MemFree: 8000000"; "Buffers: 1000000";
   "Cached: 2000000"].

Definition meminfo_world : World :=
  with_lines absent_world "/proc/meminfo" meminfo_lines.

Definition meminfo_short_world : World :=
  with_lines absent_world "/proc/meminfo"
    ["MemTotal: 16000000"; "MemFree: 8000000"; "SwapTotal: 0"].

(** An interface file with one counted device. *)
Definition netdev_lines : list string :=
  ["Inter-|   Receive                |  Transmit";
   "    lo: 1000 10 0 0 0 0 0 0 1000 10 0 0 0 0 0 0";
   "  eth0: 123456 10 0 0 0 0 0 0 2048 10 0 0 0 0 0 0"].

Definition netdev_world : World :=
  with_lines absent_world "/proc/net/dev" netdev_lines.

(** The fragments of a tick in which every sampler fell back. *)
Definition fallback_status (date distroSign : string) : list string :=
  [""; mutedSign ++ " ERR"; wifiSignOff ++ " ERR";
   netReceivedSign ++ " ERR " ++ netTransmittedSign ++ " ERR";
   cpuSign ++ "ERR"; cpuTempSign ++ " ERR"; memSign ++ "ERR"; "|ERR";
   "unknown"; date; keyboardSign ++ " default"; distroSign].

(** Every source of every sampler returns an error. *)
Definition all_absent (w : World) : Prop :=
  Output w "pacmd" ["list-sinks"] = None /\
  Output w "awk" [awkProgram; "/proc/net/wireless"] = None /\
  OpenLines w "/proc/net/dev" = None /\
  ReadFile w "/proc/loadavg" = None /\
  OpenLines w "/sys/class/thermal/thermal_zone1/temp" = None /\
  OpenLines w "/proc/meminfo" = None /\
  ReadFile w (powerSupply ++ "AC/online") = None /\
  Output w "acpi" ["-b"] = None /\
  OpenLines w "/home/john/.config/xmodmap_switcher/state" = None.

(** ** Reference sums *)

(** The exact sums of the received and transmitted bytes over the scanned
    lines whose device is in [netDevs]. *)
Fixpoint counted_totals (scanned : list (string * Z * Z)) : Z * Z :=
  match scanned with
  | [] => (0, 0)
  | (dev, rx, tx) :: rest =>
      let '(r, t) := counted_totals rest in
      if netDevs_has dev then (rx + r, tx + t) else (r, t)
  end.

(** [line] scans as the device [dev] whatever the operands held, and, when
    the device is counted, as the numbers [rx] and [tx]. *)
Definition scans_as (sc : Scanf) (line : string) (p : string * Z * Z)
    : Prop :=
  forall ops,
    fst (fst (scan_net sc line ops)) = fst (fst p) /\
    (netDevs_has (fst (fst p)) = true -> scan_net sc line ops = p).

(** The exact sums of the readings of the entries named BAT*. *)
Fixpoint battery_sums (w : World) (batts : list string) : Z * Z :=
  match batts with
  | [] => (0, 0)
  | name :: rest =>
      let '(f, n) := battery_sums w rest in
      if Strings.HasPrefix name "BAT"
      then (readval w name "full" + f, readval w name "now" + n)
      else (f, n)
  end.

(** A digit or a minus sign: the bytes [%d] prints. *)
Definition printed_byte (c : ascii) : bool :=
  Regexp.is_digit c || Ascii.eqb c "-".

(** Every byte of [s] satisfies [f]. *)
Fixpoint string_all (f : ascii -> bool) (s : string) : bool :=
  match s with
  | EmptyString => true
  | String c s' => f c && string_all f s'
  end.

(** ** The loop of [main] and the unused [colored] *)

(** The rounds of the loop of [main] over the worlds of successive
    ticks: the lines handed to the publisher, in order, and how the run of
    ticks ends, with the carried counters or with a panic. *)
Fixpoint loop (sc : Scanf) (distroSign : string) (ws : list World)
    (st : NetState) : list string * result NetState :=
  match ws with
  | [] => ([], Ret st)
  | w :: ws' =>
      match tick sc w distroSign st with
      | Panic => ([], Panic)
      | Ret t =>
          let '(lines, r) := loop sc distroSign ws' (state t) in
          (line t :: lines, r)
      end
  end.

(** [main]: the distribution icon is computed once, in the world [w0] of
    the start, and the loop runs from [rxOld = txOld = 0]. *)
Definition main (sc : Scanf) (w0 : World) (ws : list World)
    : list string * result NetState :=
  match getDistroSign w0 with
  | Panic => ([], Panic)
  | Ret distroSign => loop sc distroSign ws initial_state
  end.

(** [colored] surrounds the percentage with color escapes if it is >= 70,
    says its comment; the three format strings of the source are the
    same. *)
Definition colored (icon : string) (percentage : Z) : string :=
  if percentage >=? 100 then icon ++ Fmt.d 3 percentage
  else if percentage >=? 70 then icon ++ Fmt.d 3 percentage
  else icon ++ Fmt.d 3 percentage.

(** The line of a tick in which every sampler fell back. *)
Definition fallback_line (w : World) (distroSign : string) : string :=
  Strings.Join
    (fallback_status (NowFormat w (dateSeparator ++ " Mon Jan 02 15:04"))
       distroSign)
    fieldSeparator.

(** ** What an expression matches

    [Matches r p new]: the expression [r] matches the string [p], and its
    groups capture [new], the last one first. *)
Inductive Matches : Regexp.re -> string -> Regexp.caps -> Prop :=
| M_Eps : Matches Regexp.Eps "" []
| M_Chr c : Matches (Regexp.Chr c) (String c "") []
| M_Any fl x :
    fl || negb (Ascii.eqb x Regexp.newline) = true ->
    Matches (Regexp.Any fl) (String x "") []
| M_Digit x :
    Regexp.is_digit x = true -> Matches Regexp.Digit (String x "") []
| M_Seq r1 r2 p1 p2 n1 n2 :
    Matches r1 p1 n1 -> Matches r2 p2 n2 ->
    Matches (Regexp.Seq r1 r2) (p1 ++ p2) (n2 ++ n1)%list
| M_Alt_l r1 r2 p n : Matches r1 p n -> Matches (Regexp.Alt r1 r2) p n
| M_Alt_r r1 r2 p n : Matches r2 p n -> Matches (Regexp.Alt r1 r2) p n
| M_Star_nil r : Matches (Regexp.Star r) "" []
| M_Star_cons r p1 p2 n1 n2 :
    Matches r p1 n1 -> Matches (Regexp.Star r) p2 n2 ->
    Matches (Regexp.Star r) (p1 ++ p2) (n2 ++ n1)%list
| M_Group i r p n :
    Matches r p n -> Matches (Regexp.Group i r) p ((i, p) :: n).

(** [s] starts with a time, two digits, a colon, two digits, a colon and
    two digits; [s] has a time somewhere. *)
Definition is_time (s : string) : bool :=
  match s with
  | String a (String b (String c (String d (String e (String f
      (String g (String h _))))))) =>
      Regexp.is_digit a && Regexp.is_digit b && Ascii.eqb c ":"
      && Regexp.is_digit d && Regexp.is_digit e && Ascii.eqb f ":"
      && Regexp.is_digit g && Regexp.is_digit h
  | _ => false
  end.

Fixpoint has_time (s : string) : bool :=
  is_time s
  || match s with
     | String _ s' => has_time s'
     | EmptyString => false
     end.

(** * Properties *)

(** ** Integers *)

Module IntFacts.
Import Int.

Lemma wrap_in_range z : in_range (wrap z).
Proof.
  unfold in_range, wrap, min_int, max_int.
  pose proof (Z.mod_pos_bound (z + 2 ^ 63) (2 ^ 64) ltac:(lia)). lia.
Qed.

Lemma wrap_small z : in_range z -> wrap z = z.
Proof.
  unfold in_range, wrap, min_int, max_int. intros H.
  rewrite Z.mod_small; lia.
Qed.

Lemma sub_diag a : sub a a = 0.
Proof. unfold sub. rewrite Z.sub_diag. reflexivity. Qed.

End IntFacts.

(** ** Strings *)

Module StringsFacts.
Import Strings.

Lemma strip_prefix_app p s r : strip_prefix p s = Some r -> s = p ++ r.
Proof.
  revert s; induction p as [|a p IH]; intros s H; simpl in *.
  - congruence.
  - destruct s as [|b s]; [discriminate|].
    destruct (Ascii.eqb a b) eqn:E; [|discriminate].
    apply Ascii.eqb_eq in E. subst b. f_equal. auto.
Qed.

Lemma strip_prefix_self p r : strip_prefix p (p ++ r) = Some r.
Proof.
  induction p as [|a p IH]; simpl; [reflexivity|].
  rewrite Ascii.eqb_refl. exact IH.
Qed.

Lemma Replace1_same s old : Replace1 s old old = s.
Proof.
  induction s as [|c s IH]; simpl.
  - destruct (strip_prefix old "") eqn:E; [|reflexivity].
    symmetry. exact (strip_prefix_app _ _ _ E).
  - destruct (strip_prefix old (String c s)) eqn:E.
    + symmetry. exact (strip_prefix_app _ _ _ E).
    + now rewrite IH.
Qed.

Lemma length_app (s t : string) :
  String.length (s ++ t) = (String.length s + String.length t)%nat.
Proof. induction s; simpl; auto. Qed.

Lemma app_assoc (s t u : string) : (s ++ t) ++ u = s ++ t ++ u.
Proof. induction s; simpl; congruence. Qed.

Lemma app_inv_head (p s t : string) : p ++ s = p ++ t -> s = t.
Proof. induction p; simpl; intros H; [auto | injection H; auto]. Qed.

Lemma HasSuffix_app s suf : HasSuffix (s ++ suf) suf = true.
Proof.
  induction s as [|c s IH].
  - destruct suf; simpl; [reflexivity|].
    now rewrite Ascii.eqb_refl, String.eqb_refl.
  - cbn [append HasSuffix]. rewrite IH.
    now destruct (String.eqb _ _).
Qed.

Lemma Contains_app_l p s sub :
  Contains s sub = true -> Contains (p ++ s) sub = true.
Proof.
  intros H. induction p as [|c p IH]; [exact H|].
  cbn [append Contains]. rewrite IH. now destruct (strip_prefix _ _).
Qed.

Lemma Contains_cons_char (c x : ascii) (s : string) :
  Contains (String x s) (String c "") = Ascii.eqb c x || Contains s (String c "").
Proof.
  cbn [Contains strip_prefix]. now destruct (Ascii.eqb c x).
Qed.

End StringsFacts.

(** ** Decimal printing *)

Module FmtFacts.
Import Fmt.

Lemma utoa_1 n : 0 <= n < 10 -> utoa n = String (digit_char n) "".
Proof.
  intros H. unfold utoa. cbn [utoa_aux].
  rewrite Z.mod_small by lia.
  destruct (Z.ltb_spec n 10); [reflexivity | lia].
Qed.

Lemma utoa_2 n :
  10 <= n < 100 ->
  utoa n = String (digit_char (n / 10)) (String (digit_char (n mod 10)) "").
Proof.
  intros H. unfold utoa.
  pose proof (Z.log2_le_mono 8 n ltac:(lia)) as L.
  change (Z.log2 8) with 3 in L.
  destruct (Z.to_nat (Z.log2 n)) as [|k] eqn:E; [lia|].
  cbn [utoa_aux].
  destruct (Z.ltb_spec n 10); [lia|].
  assert (0 <= n / 10 < 10) as Hq
      by (split; [apply Z.div_pos | apply Z.div_lt_upper_bound]; lia).
  rewrite (Z.mod_small (n / 10)) by lia.
  destruct (Z.ltb_spec (n / 10) 10); [reflexivity | lia].
Qed.

Lemma utoa_3 n :
  100 <= n < 1000 ->
  utoa n = String (digit_char (n / 100))
             (String (digit_char (n / 10 mod 10))
                (String (digit_char (n mod 10)) "")).
Proof.
  intros H. unfold utoa.
  pose proof (Z.log2_le_mono 64 n ltac:(lia)) as L.
  change (Z.log2 64) with 6 in L.
  destruct (Z.to_nat (Z.log2 n)) as [|[|k]] eqn:E; [lia|lia|].
  cbn [utoa_aux].
  destruct (Z.ltb_spec n 10); [lia|].
  assert (10 <= n / 10 < 100) as Hq
      by (split; [apply Z.div_le_lower_bound | apply Z.div_lt_upper_bound]; lia).
  destruct (Z.ltb_spec (n / 10) 10); [lia|].
  rewrite Z.div_div by lia. change (10 * 10) with 100.
  assert (0 <= n / 100 < 10) as Hq'
      by (split; [apply Z.div_pos | apply Z.div_lt_upper_bound]; lia).
  rewrite (Z.mod_small (n / 100)) by lia.
  destruct (Z.ltb_spec (n / 100) 10); [reflexivity | lia].
Qed.

Lemma itoa_nonneg n : 0 <= n -> itoa n = utoa n.
Proof. intros H. unfold itoa. destruct (Z.ltb_spec n 0); [lia | reflexivity]. Qed.

Lemma digit_char_cases x :
  0 <= x < 10 ->
  In (digit_char x) ["0"; "1"; "2"; "3"; "4"; "5"; "6"; "7"; "8"; "9"]%char.
Proof.
  intros H.
  assert (x = 0 \/ x = 1 \/ x = 2 \/ x = 3 \/ x = 4 \/ x = 5 \/ x = 6 \/
          x = 7 \/ x = 8 \/ x = 9) as C by lia.
  repeat (destruct C as [C|C]; [subst x; simpl; tauto|]).
  subst x; simpl; tauto.
Qed.

Lemma digit_char_not_dot x : 0 <= x < 10 -> Ascii.eqb "." (digit_char x) = false.
Proof.
  intros H. pose proof (digit_char_cases x H) as C. cbn [In] in C.
  repeat (destruct C as [C|C]; [rewrite <- C; reflexivity|]).
  contradiction.
Qed.

Lemma d1 n : 0 <= n < 10 -> d 1 n = String (digit_char n) "".
Proof.
  intros H. unfold d. rewrite itoa_nonneg, utoa_1 by lia. reflexivity.
Qed.

Lemma d2_small n : 0 <= n < 10 -> d 2 n = String " " (String (digit_char n) "").
Proof.
  intros H. unfold d. rewrite itoa_nonneg, utoa_1 by lia. reflexivity.
Qed.

Lemma d2 n :
  10 <= n < 100 ->
  d 2 n = String (digit_char (n / 10)) (String (digit_char (n mod 10)) "").
Proof.
  intros H. unfold d. rewrite itoa_nonneg, utoa_2 by lia. reflexivity.
Qed.

Lemma d3 n :
  100 <= n < 1000 ->
  d 3 n = String (digit_char (n / 100))
            (String (digit_char (n / 10 mod 10))
               (String (digit_char (n mod 10)) "")).
Proof.
  intros H. unfold d. rewrite itoa_nonneg, utoa_3 by lia. reflexivity.
Qed.

Lemma digit_val_char x : 0 <= x < 10 -> digit_val (digit_char x) = Some x.
Proof.
  intros H.
  assert (x = 0 \/ x = 1 \/ x = 2 \/ x = 3 \/ x = 4 \/ x = 5 \/ x = 6 \/
          x = 7 \/ x = 8 \/ x = 9) as C by lia.
  repeat (destruct C as [C|C]; [subst x; reflexivity|]).
  subst x; reflexivity.
Qed.

(** Reading back what [utoa_aux] printed in front of [acc] shifts the
    accumulator by the digits of [n]: the fuel suffices below
    [10 ^ fuel]. *)
Lemma parse_utoa_aux fuel :
  forall n acc,
    0 <= n < 10 ^ Z.of_nat fuel ->
    exists j, 0 <= j /\
      forall a, parse_digits (utoa_aux fuel n acc) a
                = parse_digits acc (a * 10 ^ j + n).
Proof.
  induction fuel as [|fuel IH]; intros n acc H.
  - change (10 ^ Z.of_nat 0) with 1 in H. exists 0. split; [lia|].
    intros a. cbn [utoa_aux]. f_equal. lia.
  - assert (0 <= n mod 10 < 10) as Hm by (apply Z.mod_pos_bound; lia).
    cbn [utoa_aux]. destruct (Z.ltb_spec n 10).
    + exists 1. split; [lia|]. intros a. cbn [parse_digits].
      rewrite digit_val_char by assumption. f_equal.
      rewrite Z.mod_small by lia. lia.
    + destruct (IH (n / 10) (String (digit_char (n mod 10)) acc))
        as (j & Hj & E).
      { split; [apply Z.div_pos; lia|].
        apply Z.div_lt_upper_bound; [lia|].
        rewrite Nat2Z.inj_succ, Z.pow_succ_r in H by lia. lia. }
      exists (j + 1). split; [lia|]. intros a. rewrite E.
      cbn [parse_digits]. rewrite digit_val_char by assumption. f_equal.
      rewrite Z.pow_add_r, Z.pow_1_r by lia.
      pose proof (Z.div_mod n 10 ltac:(lia)). lia.
Qed.

(** [utoa] prints a number that reads back as itself. *)
Lemma parse_utoa n : 0 <= n -> parse_digits (utoa n) 0 = Some n.
Proof.
  intros H. unfold utoa.
  destruct (parse_utoa_aux (S (Z.to_nat (Z.log2 n))) n "") as (j & _ & E).
  - split; [exact H|].
    rewrite Nat2Z.inj_succ, Z2Nat.id by apply Z.log2_nonneg.
    destruct (Z.eq_dec n 0) as [-> | Hn]; [reflexivity|].
    apply Z.lt_le_trans with (2 ^ Z.succ (Z.log2 n)).
    + apply Z.log2_spec. lia.
    + apply Z.pow_le_mono_l. lia.
  - rewrite E. reflexivity.
Qed.

Lemma utoa_aux_nonempty fuel :
  forall n acc, acc <> "" -> utoa_aux fuel n acc <> "".
Proof.
  induction fuel as [|fuel IH]; intros n acc H; cbn [utoa_aux]; [exact H|].
  destruct (n <? 10); [discriminate|]. apply IH. discriminate.
Qed.

Lemma utoa_nonempty n : utoa n <> "".
Proof.
  unfold utoa. cbn [utoa_aux].
  destruct (n <? 10); [discriminate|]. apply utoa_aux_nonempty. discriminate.
Qed.

Lemma utoa_head_not_sign n :
  0 <= n ->
  exists c r, utoa n = String c r /\
    Ascii.eqb c "-" = false /\ Ascii.eqb c "+" = false.
Proof.
  intros H. pose proof (parse_utoa n H) as P.
  destruct (utoa n) as [|c r] eqn:E; [now elim (utoa_nonempty n)|].
  exists c, r. split; [reflexivity|].
  cbn [parse_digits] in P. unfold digit_val in P.
  destruct (Ascii.eqb_spec c "-") as [-> | ]; [discriminate P|].
  destruct (Ascii.eqb_spec c "+") as [-> | ]; [discriminate P|].
  now split.
Qed.

(** [strconv.Atoi] reads back what [%d] prints, over the whole range of
    [int]. *)
Lemma Atoi_itoa n : Int.in_range n -> Atoi (itoa n) = Some n.
Proof.
  unfold Int.in_range. intros H.
  assert ((Int.min_int <=? n) && (n <=? Int.max_int) = true) as R.
  { apply andb_true_intro. split; apply Z.leb_le; lia. }
  unfold itoa. destruct (Z.ltb_spec n 0).
  - unfold Atoi. cbn [append Ascii.eqb Bool.eqb].
    destruct (utoa (- n)) as [|c r] eqn:E; [now elim (utoa_nonempty (- n))|].
    rewrite <- E, parse_utoa by lia. rewrite Z.opp_involutive, R.
    reflexivity.
  - destruct (utoa_head_not_sign n ltac:(lia)) as (c & r & E & Hm & Hp).
    unfold Atoi. rewrite E, Hm, Hp, <- E, parse_utoa by lia.
    now rewrite R.
Qed.

End FmtFacts.

(** ** The rate formatter *)

Lemma rate_field_length rate decDigit :
  String.length (rate_field rate decDigit) = 4%nat.
Proof.
  unfold rate_field.
  destruct (100 <=? rate); [reflexivity|].
  destruct (10 <=? rate); reflexivity.
Qed.

Lemma fixed_format_field pre decDigit rate suf :
  0 <= rate < 1000 -> 0 <= decDigit < 10 ->
  fixed_format pre decDigit rate suf = pre ++ rate_field rate decDigit ++ suf.
Proof.
  intros Hr Hd. unfold fixed_format, rate_field, floatSeparator.
  rewrite StringsFacts.Replace1_same.
  destruct (Z.geb_spec rate 100), (Z.leb_spec 100 rate); try lia.
  - rewrite FmtFacts.d3 by lia. reflexivity.
  - destruct (Z.geb_spec rate 10), (Z.leb_spec 10 rate); try lia.
    + rewrite FmtFacts.d2, FmtFacts.d1 by lia. reflexivity.
    + rewrite !FmtFacts.d1 by lia. reflexivity.
Qed.

Lemma quot_bounds r d k :
  0 < d -> 0 <= r < d * k -> 0 <= Z.quot r d < k.
Proof.
  intros Hd Hr. rewrite Z.quot_div_nonneg by lia.
  split; [apply Z.div_pos | apply Z.div_lt_upper_bound]; lia.
Qed.

Lemma rem10_bounds x : 0 <= x -> 0 <= Z.rem x 10 < 10.
Proof. intros H. apply Z.rem_bound_pos; lia. Qed.

(** The tier [fixed] selects below the overflow bound: the scaled rate,
    the decimal digit and the suffix. *)
Lemma fixed_tiers pre r :
  0 <= r < 1000 * 1024 * 1024 ->
  exists rate decDigit suf,
    fixed pre r = pre ++ rate_field rate decDigit ++ suf /\
    0 <= rate < 1000 /\ 0 <= decDigit < 10 /\
    In suf [bpsSign; kibpsSign; mibpsSign].
Proof.
  intros H. unfold fixed.
  destruct (Z.ltb_spec r 0); [lia|].
  destruct (Z.geb_spec r (1000 * 1024 * 1024)); [lia|].
  destruct (Z.geb_spec r (1000 * 1024)).
  - assert (0 <= Z.quot r (1024 * 1024) < 1000) as Hq
        by (apply quot_bounds; lia).
    assert (0 <= Z.rem (Z.quot (Z.quot r 1024) 102) 10 < 10) as Hd.
    { apply rem10_bounds.
      apply (quot_bounds (Z.quot r 1024) 102 (1000 * 1024)); [lia|].
      pose proof (quot_bounds r 1024 (1000 * 1024) ltac:(lia) ltac:(lia)).
      lia. }
    eexists _, _, mibpsSign. split; [apply fixed_format_field; assumption|].
    repeat split; try lia. simpl; tauto.
  - destruct (Z.geb_spec r 1000).
    + assert (0 <= Z.quot r 1024 < 1000) as Hq by (apply quot_bounds; lia).
      assert (0 <= Z.rem (Z.quot r 102) 10 < 10) as Hd.
      { apply rem10_bounds.
        apply (quot_bounds r 102 (1000 * 1024)); lia. }
      eexists _, _, kibpsSign. split; [apply fixed_format_field; assumption|].
      repeat split; try lia. simpl; tauto.
    + exists r, 0, bpsSign. split; [apply fixed_format_field; lia|].
      repeat split; try lia. simpl; tauto.
Qed.

Lemma suffix_length suf :
  In suf [bpsSign; kibpsSign; mibpsSign] -> String.length suf = 1%nat.
Proof.
  cbn [In]. intros [<-|[<-|[<-|[]]]]; reflexivity.
Qed.

(** C1. For every integer rate [r], [fixed pre r] is [pre ++ " ERR"] if
    and only if [r < 0] or [r >= 1000*1024*1024]; for every other [r] it
    is the prefix, a field of four bytes and one of the three unit
    suffixes, which is never the ERR form. *)
Theorem fixed_err_iff (pre : string) (r : Z) :
  (fixed pre r = pre ++ " ERR" <-> r < 0 \/ r >= 1000 * 1024 * 1024) /\
  (~ (r < 0 \/ r >= 1000 * 1024 * 1024) ->
   exists field suf,
     fixed pre r = pre ++ field ++ suf /\
     String.length field = 4%nat /\
     In suf [bpsSign; kibpsSign; mibpsSign] /\
     fixed pre r <> pre ++ " ERR").
Proof.
  assert (0 <= r < 1000 * 1024 * 1024 ->
          exists field suf,
            fixed pre r = pre ++ field ++ suf /\
            String.length field = 4%nat /\
            In suf [bpsSign; kibpsSign; mibpsSign] /\
            fixed pre r <> pre ++ " ERR") as Hfmt.
  { intros H. destruct (fixed_tiers pre r H) as (rate & dec & suf & E & _ & _ & Hs).
    exists (rate_field rate dec), suf.
    repeat split; auto using rate_field_length.
    rewrite E. intros C. apply StringsFacts.app_inv_head in C.
    apply (f_equal String.length) in C.
    rewrite StringsFacts.length_app, rate_field_length,
      (suffix_length suf Hs) in C.
    discriminate C. }
  split; [split|].
  - intros E.
    destruct (Z.lt_ge_cases r 0) as [|H0]; [now left|].
    destruct (Z.lt_ge_cases r (1000 * 1024 * 1024)) as [H1|]; [|right; lia].
    destruct (Hfmt (conj H0 H1)) as (_ & _ & _ & _ & _ & N). contradiction.
  - intros [H|H]; unfold fixed.
    + destruct (Z.ltb_spec r 0); [reflexivity | lia].
    + destruct (Z.ltb_spec r 0); [reflexivity|].
      destruct (Z.geb_spec r (1000 * 1024 * 1024)); [reflexivity | lia].
  - intros H. apply Hfmt. lia.
Qed.

Lemma fixed_err_iff_witness :
  fixed "rx" 1048576000 = "rx" ++ " ERR" /\
  exists field suf,
    fixed "rx" 1023 = "rx" ++ field ++ suf /\
    String.length field = 4%nat /\
    In suf [bpsSign; kibpsSign; mibpsSign] /\
    fixed "rx" 1023 <> "rx" ++ " ERR".
Proof.
  split.
  - apply (proj1 (fixed_err_iff "rx" 1048576000)). right. lia.
  - apply (proj2 (fixed_err_iff "rx" 1023)). lia.
Defined.

(** C2, as the specification states it, fails: below 100 bytes per second
    the field has a decimal separator. *)
Lemma fixed_bytes_tier_has_separator :
  ~ (forall pre r, 0 <= r < 1000 ->
       Strings.HasSuffix (fixed pre r) bpsSign = true /\
       Strings.Contains (fixed pre r) floatSeparator = false).
Proof.
  intros H. destruct (H "" 5 ltac:(lia)) as [_ C]. discriminate C.
Qed.

(** C2, amended. For every rate [r] with [0 <= r < 1000] the output ends
    in the B/s marker; from 100 on, what follows the prefix has no decimal
    separator; below 100 it is the rate in a field of width two, the
    separator and the digit 0. *)
Theorem fixed_bytes_tier (pre : string) (r : Z) :
  0 <= r < 1000 ->
  Strings.HasSuffix (fixed pre r) bpsSign = true /\
  (100 <= r ->
   exists field,
     fixed pre r = pre ++ field ++ bpsSign /\
     Strings.Contains (field ++ bpsSign) floatSeparator = false) /\
  (r < 100 ->
   fixed pre r = pre ++ Fmt.d 2 r ++ floatSeparator ++ "0" ++ bpsSign).
Proof.
  intros H.
  assert (fixed pre r = pre ++ rate_field r 0 ++ bpsSign) as E.
  { unfold fixed.
    destruct (Z.ltb_spec r 0); [lia|].
    destruct (Z.geb_spec r (1000 * 1024 * 1024)); [lia|].
    destruct (Z.geb_spec r (1000 * 1024)); [lia|].
    destruct (Z.geb_spec r 1000); [lia|].
    apply fixed_format_field; lia. }
  split; [|split].
  - rewrite E, <- !StringsFacts.app_assoc. apply StringsFacts.HasSuffix_app.
  - intros H100. exists (rate_field r 0). split; [exact E|].
    unfold rate_field, floatSeparator, bpsSign.
    destruct (Z.leb_spec 100 r); [|lia].
    cbn [append]. rewrite !StringsFacts.Contains_cons_char.
    rewrite !FmtFacts.digit_char_not_dot; [reflexivity| | |].
    + apply Z.mod_pos_bound; lia.
    + apply Z.mod_pos_bound; lia.
    + split; [apply Z.div_pos | apply Z.div_lt_upper_bound]; lia.
  - intros H100. rewrite E. unfold rate_field, floatSeparator.
    destruct (Z.leb_spec 100 r); [lia|].
    destruct (Z.leb_spec 10 r).
    + rewrite FmtFacts.d2 by lia. reflexivity.
    + rewrite FmtFacts.d2_small by lia. reflexivity.
Qed.

Lemma fixed_bytes_tier_witness :
  Strings.HasSuffix (fixed "rx" 512) bpsSign = true /\
  (100 <= 512 ->
   exists field,
     fixed "rx" 512 = "rx" ++ field ++ bpsSign /\
     Strings.Contains (field ++ bpsSign) floatSeparator = false) /\
  (512 < 100 ->
   fixed "rx" 512 = "rx" ++ Fmt.d 2 512 ++ floatSeparator ++ "0" ++ bpsSign).
Proof.
  apply (fixed_bytes_tier "rx" 512). lia.
Defined.

(** C3. For every rate [r] with [0 <= r < 1000*1024*1024], the length of
    [fixed pre r] is the length of the prefix plus five, whatever the
    prefix. *)
Theorem fixed_width (pre : string) (r : Z) :
  0 <= r < 1000 * 1024 * 1024 ->
  String.length (fixed pre r) = (String.length pre + 5)%nat.
Proof.
  intros H. destruct (fixed_tiers pre r H) as (rate & dec & suf & E & _ & _ & Hs).
  rewrite E, !StringsFacts.length_app, rate_field_length,
    (suffix_length suf Hs).
  reflexivity.
Qed.

Lemma fixed_width_witness :
  String.length (fixed netReceivedSign 123456) =
  (String.length netReceivedSign + 5)%nat.
Proof.
  apply (fixed_width netReceivedSign 123456). lia.
Defined.

(** ** Time to deplete or charge the battery *)

(** [FindStringSubmatch] returns [nil] or the match followed by every
    group: for an expression with a group its length is never 1. *)
Lemma FindStringSubmatch_length r n s :
  List.length (Regexp.FindStringSubmatch r n s) = 0%nat \/
  List.length (Regexp.FindStringSubmatch r n s) = S n.
Proof.
  unfold Regexp.FindStringSubmatch.
  destruct (Regexp.search r s) as [[whole cs]|]; [right | left; reflexivity].
  cbn [List.length]. now rewrite length_map, length_seq.
Qed.

Lemma updatePowerTime_command_fails w :
  Output w "acpi" ["-b"] = None -> updatePowerTime w = Ret "unknown".
Proof. intros H. unfold updatePowerTime. now rewrite H. Qed.

(** Without a match the test [len(acpiMatch) == 1] is false and
    [acpiMatch[1]] is out of range. *)
Lemma updatePowerTime_no_match w out :
  Output w "acpi" ["-b"] = Some out ->
  Regexp.search timeRx out = None ->
  updatePowerTime w = Panic.
Proof.
  intros H N. unfold updatePowerTime, Regexp.FindStringSubmatch.
  rewrite H, N. reflexivity.
Qed.

(** With a match the sampler returns the first five bytes of the group. *)
Lemma updatePowerTime_match w out whole cs :
  Output w "acpi" ["-b"] = Some out ->
  Regexp.search timeRx out = Some (whole, cs) ->
  updatePowerTime w = slice_to (Regexp.group cs 1) 5.
Proof.
  intros H M. unfold updatePowerTime, Regexp.FindStringSubmatch.
  rewrite H, M. reflexivity.
Qed.

Lemma substring_length n s :
  (n <= String.length s)%nat -> String.length (substring 0 n s) = n.
Proof.
  revert s. induction n as [|n IH]; intros s H.
  - now destruct s.
  - destruct s as [|c s]; [inversion H|].
    cbn [substring String.length]. f_equal. apply IH.
    cbn [String.length] in H. lia.
Qed.

(** Once the command has run, the branch that returns ["unknown"] is
    dead: the sampler panics or returns five bytes. *)
Lemma updatePowerTime_not_unknown w out :
  Output w "acpi" ["-b"] = Some out ->
  updatePowerTime w <> Ret "unknown".
Proof.
  intros H. unfold updatePowerTime. rewrite H.
  destruct (FindStringSubmatch_length timeRx 1 out) as [L|L]; rewrite L;
    cbn [Nat.eqb].
  - destruct (Regexp.FindStringSubmatch timeRx 1 out); [|discriminate L].
    discriminate.
  - destruct (index (Regexp.FindStringSubmatch timeRx 1 out) 1) as [g|];
      [|discriminate].
    cbn [bind]. unfold slice_to.
    destruct (Nat.leb_spec 5 (String.length g)); [|discriminate].
    intros C. injection C as C.
    apply (f_equal String.length) in C.
    rewrite substring_length in C by assumption. discriminate C.
Qed.

(** C4, where the code departs from it. When the command succeeds and its
    output has no time in it (here: no output at all, and the line acpi
    prints for a full battery), [updatePowerTime] does not return
    ["unknown"]: it panics on [acpiMatch[1]]. *)
Theorem updatePowerTime_no_time_panics :
  updatePowerTime (with_output absent_world "acpi" "") = Panic /\
  updatePowerTime (with_output absent_world "acpi" acpi_full) = Panic.
Proof. split; reflexivity. Qed.

(** With a time in the output the sampler returns its hours and minutes. *)
Example updatePowerTime_discharging :
  updatePowerTime
    (with_output absent_world "acpi"
       ("Battery 0: Discharging, 50%, 01:23:45 remaining" ++ nl))
  = Ret "01:23".
Proof. reflexivity. Qed.

(** ** Battery *)

Lemma quot_abs_le a b : b <> 0 -> Z.abs (Z.quot a b) <= Z.abs a.
Proof.
  intros Hb. rewrite <- (Z.quot_abs a b) by lia.
  rewrite Z.quot_div_nonneg by lia.
  apply Z.div_le_upper_bound; [lia|]. nia.
Qed.

(** Within the range of [int] the quotient only wraps around for the
    smallest [int] divided by -1. *)
Lemma quot_wrap_in_range a b :
  Int.in_range a -> b <> 0 -> (a <> Int.min_int \/ b <> -1) ->
  Int.div a b = Z.quot a b.
Proof.
  unfold Int.div, Int.in_range, Int.min_int, Int.max_int.
  intros Ha Hb Hm. apply IntFacts.wrap_small.
  unfold Int.in_range, Int.min_int, Int.max_int.
  pose proof (quot_abs_le a b Hb) as Habs.
  destruct (Z.eq_dec a (- 2 ^ 63)) as [-> | ]; [|lia].
  destruct Hm as [Hm|Hm]; [lia|].
  destruct (Z.eq_dec b 1) as [-> | ]; [rewrite Z.quot_1_r; lia|].
  assert (Z.abs (Z.quot (- 2 ^ 63) b) <= 2 ^ 62) as Hq.
  { rewrite <- Z.quot_abs by lia. rewrite Z.quot_div_nonneg by lia.
    apply Z.div_le_upper_bound; lia. }
  lia.
Qed.



(** ** Memory *)

Section MemUse.

Variable sc : Scanf.

(** One iteration of the loop of [updateMemUse] on a line that scans. *)
Lemma mem_loop_cons line rest used total done prop val :
  (done =? 15) = false ->
  scan_s_f64 sc line = Some (prop, val) ->
  mem_loop sc (line :: rest) used total done =
  mem_loop sc rest (fst (mem_step (used, total) (prop, val)))
    (snd (mem_step (used, total) (prop, val)))
    (Z.lor done (mem_flag prop)).
Proof.
  intros Hd Hs. cbn [mem_loop]. rewrite Hd, Hs.
  unfold mem_step, mem_flag.
  destruct (String.eqb prop "MemTotal:"); [reflexivity|].
  destruct (String.eqb prop "MemFree:"); [reflexivity|].
  destruct (String.eqb prop "Buffers:"); [reflexivity|].
  destruct (String.eqb prop "Cached:"); [reflexivity|].
  now rewrite Z.lor_0_r.
Qed.

Lemma mem_loop_nil used total done :
  mem_loop sc [] used total done = Some (used, total).
Proof. cbn [mem_loop]. now destruct (done =? 15). Qed.

Lemma mem_flag_bit prop bit :
  0 <= bit < 4 -> prop <> mem_label bit ->
  Z.testbit (mem_flag prop) bit = false.
Proof.
  intros Hb Hp.
  assert (bit = 0 \/ bit = 1 \/ bit = 2 \/ bit = 3) as C by lia.
  unfold mem_flag.
  destruct (String.eqb_spec prop "MemTotal:") as [-> | ];
    [destruct C as [-> | [-> | [-> | ->]]]; try reflexivity; now elim Hp|].
  destruct (String.eqb_spec prop "MemFree:") as [-> | ];
    [destruct C as [-> | [-> | [-> | ->]]]; try reflexivity; now elim Hp|].
  destruct (String.eqb_spec prop "Buffers:") as [-> | ];
    [destruct C as [-> | [-> | [-> | ->]]]; try reflexivity; now elim Hp|].
  destruct (String.eqb_spec prop "Cached:") as [-> | ];
    [destruct C as [-> | [-> | [-> | ->]]]; try reflexivity; now elim Hp|].
  apply Z.testbit_0_l.
Qed.

Lemma done_not_15 done bit :
  0 <= bit < 4 -> Z.testbit done bit = false -> (done =? 15) = false.
Proof.
  intros Hb Ht. destruct (Z.eqb_spec done 15) as [-> | ]; [|reflexivity].
  assert (bit = 0 \/ bit = 1 \/ bit = 2 \/ bit = 3) as C by lia.
  destruct C as [-> | [-> | [-> | ->]]]; discriminate Ht.
Qed.

(** While one of the four labels has not been seen, the loop runs to the
    end of the file and accumulates every line. *)
Lemma mem_loop_seen bit lines :
  0 <= bit < 4 ->
  forall scanned used total done,
    map (scan_s_f64 sc) lines = map Some scanned ->
    (forall prop val, In (prop, val) scanned -> prop <> mem_label bit) ->
    Z.testbit done bit = false ->
    mem_loop sc lines used total done =
    Some (fold_left mem_step scanned (used, total)).
Proof.
  intros Hb. induction lines as [|line rest IH];
    intros scanned used total done Hm Hl Hd.
  - destruct scanned; [|discriminate Hm]. apply mem_loop_nil.
  - destruct scanned as [|[prop val] scanned]; [discriminate Hm|].
    cbn [map] in Hm. injection Hm as Hs Hm.
    rewrite (mem_loop_cons _ _ _ _ _ prop val (done_not_15 _ _ Hb Hd) Hs).
    rewrite (IH scanned); auto.
    + cbn [fold_left]. now destruct (mem_step (used, total) (prop, val)).
    + intros p v Hi. apply (Hl p v). now right.
    + rewrite Z.lor_spec, Hd. apply mem_flag_bit; [exact Hb|].
      apply (Hl prop val). now left.
Qed.

(** Lines that all scan are the image of their scanned values. *)
Lemma all_scanned lines :
  (forall line, In line lines -> scan_s_f64 sc line <> None) ->
  exists scanned, map (scan_s_f64 sc) lines = map Some scanned.
Proof.
  induction lines as [|line rest IH]; intros H.
  - now exists [].
  - destruct IH as [scanned E]; [intros l Hl; apply H; now right|].
    destruct (scan_s_f64 sc line) as [pv|] eqn:Es.
    + exists (pv :: scanned). cbn [map]. now rewrite Es, E.
    + exfalso. apply (H line); [now left | exact Es].
Qed.

End MemUse.

Lemma mem_format_not_err used total : mem_format used total <> memSign ++ "ERR".
Proof.
  unfold mem_format. intros C. apply StringsFacts.app_inv_head in C.
  discriminate C.
Qed.

(** C6. On the four lines MemTotal: 16000000, MemFree: 8000000,
    Buffers: 1000000 and Cached: 2000000, scanned as their label and
    number, the loop leaves used = 16000000 - 8000000 - 1000000 - 2000000
    and total = 16000000, and the sampler prints both divided twice by
    1024 with two decimals: 4.77 and 15.26. *)
Theorem updateMemUse_scenario (sc : Scanf) (w : World) :
  OpenLines w "/proc/meminfo" = Some meminfo_lines ->
  scan_s_f64 sc "MemTotal: 16000000" = Some ("MemTotal:", F64.of_int 16000000) ->
  scan_s_f64 sc "MemFree: 8000000" = Some ("MemFree:", F64.of_int 8000000) ->
  scan_s_f64 sc "Buffers: 1000000" = Some ("Buffers:", F64.of_int 1000000) ->
  scan_s_f64 sc "Cached: 2000000" = Some ("Cached:", F64.of_int 2000000) ->
  mem_loop sc meminfo_lines F64.zero F64.zero 0 =
    Some (F64.of_int (16000000 - 8000000 - 1000000 - 2000000),
          F64.of_int 16000000) /\
  updateMemUse sc w = memSign ++ " 4.77/15.26GB".
Proof.
  intros Ho H1 H2 H3 H4.
  assert (mem_loop sc meminfo_lines F64.zero F64.zero 0 =
          Some (F64.of_int (16000000 - 8000000 - 1000000 - 2000000),
                F64.of_int 16000000)) as E.
  { unfold meminfo_lines.
    rewrite (mem_loop_cons sc _ _ _ _ 0 _ _ eq_refl H1).
    rewrite (mem_loop_cons sc _ _ _ _ 1 _ _ eq_refl H2).
    rewrite (mem_loop_cons sc _ _ _ _ 3 _ _ eq_refl H3).
    rewrite (mem_loop_cons sc _ _ _ _ 7 _ _ eq_refl H4).
    rewrite mem_loop_nil. vm_compute. reflexivity. }
  split; [exact E|].
  unfold updateMemUse. rewrite Ho, E. vm_compute. reflexivity.
Qed.

Lemma updateMemUse_scenario_witness :
  updateMemUse GoScanf.instance meminfo_world = memSign ++ " 4.77/15.26GB".
Proof.
  exact (proj2 (updateMemUse_scenario GoScanf.instance meminfo_world
                  eq_refl eq_refl eq_refl eq_refl eq_refl)).
Defined.

(** C10. When the memory file opens, every line scans, and one of the
    four labels never appears, the sampler does not return the ERR
    fragment: it prints the icon, a blank, used and total, each divided
    twice by 1024 and with two decimals, a slash between them and GB
    behind, where used and total are what the lines with the labels that
    were seen add up to, in the order of the file; a label that was not
    seen adds nothing, so that without a MemTotal: line the total is
    printed as 0.00. *)
Theorem updateMemUse_missing_label (sc : Scanf) (w : World)
    (lines : list string) (bit : Z) :
  OpenLines w "/proc/meminfo" = Some lines ->
  (forall line, In line lines -> scan_s_f64 sc line <> None) ->
  0 <= bit < 4 ->
  (forall line val,
     In line lines -> scan_s_f64 sc line <> Some (mem_label bit, val)) ->
  exists scanned,
    map (scan_s_f64 sc) lines = map Some scanned /\
    (forall prop val, In (prop, val) scanned -> prop <> mem_label bit) /\
    updateMemUse sc w =
      memSign ++ " "
        ++ Float.fmt_f2
             (F64.div (F64.div (fst (mem_seen scanned)) (F64.of_int 1024))
                (F64.of_int 1024))
        ++ "/"
        ++ Float.fmt_f2
             (F64.div (F64.div (snd (mem_seen scanned)) (F64.of_int 1024))
                (F64.of_int 1024))
        ++ "GB" /\
    updateMemUse sc w <> memSign ++ "ERR" /\
    (bit = 0 ->
     snd (mem_seen scanned) = F64.zero /\
     updateMemUse sc w =
       memSign ++ " "
         ++ Float.fmt_f2
              (F64.div (F64.div (fst (mem_seen scanned)) (F64.of_int 1024))
                 (F64.of_int 1024))
         ++ "/0.00GB").
Proof.
  intros Ho Hs Hb Hl.
  destruct (all_scanned sc lines Hs) as [scanned Em].
  assert (forall prop val, In (prop, val) scanned -> prop <> mem_label bit)
    as Hn.
  { intros prop val Hi ->.
    assert (In (Some (mem_label bit, val)) (map (scan_s_f64 sc) lines)) as Hi'
        by (rewrite Em; now apply in_map).
    apply in_map_iff in Hi'. destruct Hi' as (line & E & Hline).
    exact (Hl line val Hline E). }
  assert (updateMemUse sc w =
          memSign ++ " "
            ++ Float.fmt_f2
                 (F64.div (F64.div (fst (mem_seen scanned)) (F64.of_int 1024))
                    (F64.of_int 1024))
            ++ "/"
            ++ Float.fmt_f2
                 (F64.div (F64.div (snd (mem_seen scanned)) (F64.of_int 1024))
                    (F64.of_int 1024))
            ++ "GB") as E.
  { unfold updateMemUse. rewrite Ho.
    rewrite (mem_loop_seen sc bit lines Hb scanned F64.zero F64.zero 0 Em Hn)
      by apply Z.testbit_0_l.
    fold (mem_seen scanned). now destruct (mem_seen scanned). }
  assert (bit = 0 -> snd (mem_seen scanned) = F64.zero) as Hzero.
  { intros ->. unfold mem_seen.
    assert (forall acc, snd acc = F64.zero ->
              snd (fold_left mem_step scanned acc) = F64.zero) as Hz.
    { clear Em E. induction scanned as [|[prop val] rest IH]; intros acc Ha.
      - exact Ha.
      - cbn [fold_left]. apply IH.
        + intros p v Hi. apply (Hn p v). now right.
        + destruct acc as [used total]. cbn [snd] in Ha. subst total.
          unfold mem_step.
          destruct (String.eqb_spec prop "MemTotal:") as [-> | ].
          * exfalso. now apply (Hn "MemTotal:" val); [left|].
          * now repeat destruct (String.eqb _ _). }
    now apply Hz. }
  exists scanned. split; [exact Em|]. split; [exact Hn|].
  split; [exact E|]. split.
  - rewrite E. intros C. apply StringsFacts.app_inv_head in C.
    discriminate C.
  - intros B. split; [now apply Hzero|].
    rewrite E, (Hzero B). reflexivity.
Qed.

Lemma updateMemUse_missing_label_witness :
  (exists scanned,
     map (scan_s_f64 GoScanf.instance)
       ["MemTotal: 16000000"; "MemFree: 8000000"; "SwapTotal: 0"]
     = map Some scanned /\
     (forall prop val, In (prop, val) scanned -> prop <> mem_label 3) /\
     updateMemUse GoScanf.instance meminfo_short_world =
       memSign ++ " "
         ++ Float.fmt_f2
              (F64.div (F64.div (fst (mem_seen scanned)) (F64.of_int 1024))
                 (F64.of_int 1024))
         ++ "/"
         ++ Float.fmt_f2
              (F64.div (F64.div (snd (mem_seen scanned)) (F64.of_int 1024))
                 (F64.of_int 1024))
         ++ "GB" /\
     updateMemUse GoScanf.instance meminfo_short_world <> memSign ++ "ERR" /\
     (3 = 0 ->
      snd (mem_seen scanned) = F64.zero /\
      updateMemUse GoScanf.instance meminfo_short_world =
        memSign ++ " "
          ++ Float.fmt_f2
               (F64.div (F64.div (fst (mem_seen scanned)) (F64.of_int 1024))
                  (F64.of_int 1024))
          ++ "/0.00GB")) /\
  updateMemUse GoScanf.instance meminfo_short_world
  = memSign ++ " 7.63/15.26GB".
Proof.
  assert (T := updateMemUse_missing_label GoScanf.instance
                 meminfo_short_world
                 ["MemTotal: 16000000"; "MemFree: 8000000"; "SwapTotal: 0"]
                 3 eq_refl).
  assert (forall line,
            In line ["MemTotal: 16000000"; "MemFree: 8000000"; "SwapTotal: 0"] ->
            scan_s_f64 GoScanf.instance line <> None) as H1
      by (intros line [<-|[<-|[<-|[]]]]; discriminate).
  assert (forall line val,
            In line ["MemTotal: 16000000"; "MemFree: 8000000"; "SwapTotal: 0"] ->
            scan_s_f64 GoScanf.instance line <> Some (mem_label 3, val)) as H3
      by (intros line val [<-|[<-|[<-|[]]]]; discriminate).
  specialize (T H1 ltac:(lia) H3).
  split; [exact T|].
  destruct T as (scanned & Em & _ & E & _).
  vm_compute in Em.
  destruct scanned as [|a [|b [|c [|d scanned]]]]; try discriminate Em.
  injection Em as <- <- <-.
  rewrite E. vm_compute. reflexivity.
Defined.

(** The same with the total missing: only MemFree: is seen, so used is
    0 - 8000000 and the total is printed as 0.00. *)
Example updateMemUse_no_total :
  updateMemUse GoScanf.instance
    (with_lines absent_world "/proc/meminfo" ["MemFree: 8000000"])
  = memSign ++ " -7.63/0.00GB".
Proof. vm_compute. reflexivity. Qed.

Example updateMemUse_short :
  updateMemUse GoScanf.instance meminfo_short_world = memSign ++ " 7.63/15.26GB".
Proof. vm_compute. reflexivity. Qed.

(** ** Network *)

Lemma fixed_zero pre : fixed pre 0 = pre ++ " 0.0b".
Proof. reflexivity. Qed.

(** C7. When the interface file opens on two successive invocations and
    the summed received and transmitted totals are the same, the second
    invocation renders both rates as the rate 0, because the first one
    left its totals in [rxOld] and [txOld]. *)
Theorem updateNetUse_idle (sc : Scanf) (w1 w2 : World) (st : NetState)
    (lines1 lines2 : list string) :
  OpenLines w1 "/proc/net/dev" = Some lines1 ->
  OpenLines w2 "/proc/net/dev" = Some lines2 ->
  net_totals sc lines1 = net_totals sc lines2 ->
  let st1 := snd (updateNetUse sc w1 st) in
  st1 = mkNetState (fst (net_totals sc lines1)) (snd (net_totals sc lines1)) /\
  updateNetUse sc w2 st1 =
    (fixed netReceivedSign 0 ++ " " ++ fixed netTransmittedSign 0
       ++ net_ping sc w2, st1) /\
  fixed netReceivedSign 0 = netReceivedSign ++ " 0.0b" /\
  fixed netTransmittedSign 0 = netTransmittedSign ++ " 0.0b".
Proof.
  intros H1 H2 Ht st1.
  assert (st1 = mkNetState (fst (net_totals sc lines1))
                  (snd (net_totals sc lines1))) as E1.
  { unfold st1, updateNetUse. rewrite H1.
    now destruct (net_totals sc lines1). }
  split; [exact E1|]. split; [|split; apply fixed_zero].
  unfold updateNetUse. rewrite H2, <- Ht, E1.
  destruct (net_totals sc lines1) as [rxNow txNow]. cbn [fst snd rxOld txOld].
  now rewrite !IntFacts.sub_diag.
Qed.

Lemma updateNetUse_idle_witness :
  updateNetUse GoScanf.instance netdev_world
    (snd (updateNetUse GoScanf.instance netdev_world initial_state))
  = (fixed netReceivedSign 0 ++ " " ++ fixed netTransmittedSign 0
       ++ net_ping GoScanf.instance netdev_world,
     snd (updateNetUse GoScanf.instance netdev_world initial_state)).
Proof.
  exact (proj1 (proj2
    (updateNetUse_idle GoScanf.instance netdev_world netdev_world
       initial_state netdev_lines netdev_lines eq_refl eq_refl eq_refl))).
Defined.

Example updateNetUse_first_tick :
  updateNetUse GoScanf.instance netdev_world initial_state
  = (netReceivedSign ++ " 120K " ++ netTransmittedSign ++ " 2.0K",
     mkNetState 123456 2048).
Proof. vm_compute. reflexivity. Qed.

(** ** The sleep of the tick loop *)

Section Sleep.

Variable now : Time.Time.
Hypothesis now_wf : Time.wf now.
Hypothesis now_range : Int.min_int <= Time.sec now < Int.max_int.

Lemma div_rem_second : Time.div_rem now Time.Second = Time.nsec now.
Proof.
  unfold Time.wf, Time.Second in now_wf.
  unfold Time.div_rem.
  change ((Time.Second <? Time.Second)
          && (Z.rem Time.Second (Time.Second + Time.Second) =? 0)) with false.
  change (Z.rem Time.Second Time.Second =? 0) with true.
  change (Z.quot Time.Second Time.Second) with 1.
  cbv iota. unfold Time.Second.
  destruct (Z.ltb_spec (Time.sec now) 0).
  - destruct (Z.ltb_spec (- Time.nsec now) 0).
    + rewrite Z.rem_1_r. cbn [andb Z.mul Z.add].
      destruct (Z.eqb_spec (- Time.nsec now + 1000000000) 0); cbn [negb]; lia.
    + rewrite Z.rem_1_r. cbn [andb Z.mul Z.add].
      destruct (Z.eqb_spec (- Time.nsec now) 0); cbn [negb]; lia.
  - rewrite Z.rem_1_r. cbn [andb Z.mul Z.add]. reflexivity.
Qed.

Lemma addSec_in_range (t : Time.Time) (d : Z) :
  0 <= d -> Int.in_range (Time.sec t + d) ->
  Time.addSec t d = Time.mkTime (Time.sec t + d) (Time.nsec t).
Proof.
  intros Hd Hr. unfold Time.addSec, Int.add.
  rewrite (IntFacts.wrap_small _ Hr).
  destruct (Z.gtb_spec (Time.sec t + d) (Time.sec t)),
    (Z.gtb_spec d 0); try lia; reflexivity.
Qed.

Lemma truncate_second :
  Time.Truncate now Time.Second = Time.mkTime (Time.sec now) 0.
Proof.
  unfold Time.Truncate. change (Time.Second <=? 0) with false. cbv iota.
  rewrite div_rem_second.
  unfold Time.wf, Time.Second in now_wf.
  unfold Time.Add.
  rewrite Z.quot_opp_l, Z.rem_opp_l, Z.quot_small, Z.rem_small by lia.
  replace (Time.nsec now + - Time.nsec now) with 0 by lia.
  change (- 0) with 0. cbv iota beta. cbn [Z.geb Z.ltb Z.compare].
  rewrite addSec_in_range; cbn [Time.sec Time.nsec].
  - now rewrite Z.add_0_r.
  - lia.
  - unfold Int.in_range. unfold Int.min_int, Int.max_int in *. lia.
Qed.

End Sleep.

Lemma add_to_boundary (now : Time.Time) :
  Time.wf now -> Int.min_int <= Time.sec now < Int.max_int ->
  Time.Add now (Time.Second - Time.nsec now)
  = Time.mkTime (Time.sec now + 1) 0.
Proof.
  unfold Time.wf, Time.Second. intros Hw Hr.
  assert (Int.in_range (Time.sec now + 1)) as Hs
      by (unfold Int.in_range, Int.min_int, Int.max_int in *; lia).
  unfold Time.Add.
  destruct (Z.eq_dec (Time.nsec now) 0) as [E|E].
  - rewrite E. change (1000000000 - 0) with 1000000000.
    change (Z.quot 1000000000 1000000000) with 1.
    change (Z.rem 1000000000 1000000000) with 0.
    cbn [Z.add Z.geb Z.ltb Z.compare]. cbv iota beta.
    rewrite addSec_in_range; [reflexivity | lia | exact Hs].
  - rewrite Z.quot_small, Z.rem_small by lia.
    replace (Time.nsec now + (1000000000 - Time.nsec now)) with 1000000000
      by lia.
    cbn [Z.add Z.sub Z.geb Z.ltb Z.compare Z.opp Z.pos_sub Pos.compare
         Pos.compare_cont]. cbv iota beta.
    rewrite addSec_in_range; [reflexivity | lia | exact Hs].
Qed.

(** C8. For every wall clock time [now], the duration the tick loop
    sleeps is what remains until the next second: it is positive, at most
    one second, and [now] plus the duration is the start of the next
    second. *)
Theorem sleep_until_next_second (now : Time.Time) :
  Time.wf now -> Int.min_int <= Time.sec now < Int.max_int ->
  sleep_duration now = Time.Second - Time.nsec now /\
  0 < sleep_duration now <= Time.Second /\
  Time.Add now (sleep_duration now) = Time.mkTime (Time.sec now + 1) 0.
Proof.
  intros Hw Hr.
  assert (sleep_duration now = Time.Second - Time.nsec now) as E.
  { unfold sleep_duration. rewrite (truncate_second now Hw Hr).
    assert (Int.in_range (Time.sec now + 1)) as Hs
        by (unfold Int.in_range, Int.min_int, Int.max_int in *; lia).
    assert (Time.Add (Time.mkTime (Time.sec now) 0) Time.Second
            = Time.mkTime (Time.sec now + 1) 0) as ->.
    { unfold Time.Add, Time.Second.
      change (Z.quot 1000000000 1000000000) with 1.
      change (Z.rem 1000000000 1000000000) with 0.
      cbn [Time.nsec Z.add Z.geb Z.ltb Z.compare]. cbv iota beta.
      rewrite addSec_in_range; [reflexivity | lia | exact Hs]. }
    unfold Time.Sub. cbn [Time.sec Time.nsec].
    assert (Int.add (Int.mul (Int.sub (Time.sec now + 1) (Time.sec now))
                       Time.Second) (0 - Time.nsec now)
            = Time.Second - Time.nsec now) as ->.
    { unfold Int.sub.
      replace (Time.sec now + 1 - Time.sec now) with 1 by lia.
      change (Int.mul (Int.wrap 1) Time.Second) with Time.Second.
      unfold Int.add. apply IntFacts.wrap_small.
      unfold Time.wf, Time.Second in *.
      unfold Int.in_range, Int.min_int, Int.max_int. lia. }
    rewrite (add_to_boundary now Hw Hr).
    unfold Time.Equal. cbn [Time.sec Time.nsec].
    now rewrite !Z.eqb_refl. }
  split; [exact E|]. split.
  - rewrite E. unfold Time.wf in Hw. lia.
  - rewrite E. now apply add_to_boundary.
Qed.

Lemma sleep_until_next_second_witness :
  sleep_duration (Time.mkTime 63900000000 250000000) = 750000000 /\
  0 < sleep_duration (Time.mkTime 63900000000 250000000) <= Time.Second /\
  Time.Add (Time.mkTime 63900000000 250000000)
    (sleep_duration (Time.mkTime 63900000000 250000000))
  = Time.mkTime 63900000001 0.
Proof.
  apply (sleep_until_next_second (Time.mkTime 63900000000 250000000)).
  - unfold Time.wf, Time.Second. cbn [Time.nsec]. lia.
  - unfold Int.min_int, Int.max_int. cbn [Time.sec]. lia.
Defined.

(** ** Fallbacks *)

(** Without a readable battery file every reading is 0, and so are the
    sums. *)
Lemma batt_totals_absent (w : World) (batts : list string) :
  (forall name field,
     ReadFile w (powerSupply ++ name ++ "/" ++ "energy_" ++ field) = None /\
     ReadFile w (powerSupply ++ name ++ "/" ++ "charge_" ++ field) = None) ->
  batt_totals w batts = (0, 0).
Proof.
  intros H. unfold batt_totals.
  assert (forall name field, readval w name field = 0) as Hr.
  { intros name field. unfold readval.
    rewrite !StringsFacts.app_assoc.
    destruct (H name field) as [-> ->]. reflexivity. }
  induction batts as [|name rest IH]; [reflexivity|].
  cbn [fold_left]. unfold batt_step at 2. rewrite !Hr.
  now destruct (negb (Strings.HasPrefix name "BAT")).
Qed.

(** C9. A sampler whose file does not open or whose command does not run
    returns its fixed fallback and does not panic; when that happens to
    every sampler, the tick still joins the twelve fragments and hands
    the line to the publisher. *)
Theorem samplers_fall_back (sc : Scanf) (w : World) (distroSign : string)
    (st : NetState) :
  (Output w "pacmd" ["list-sinks"] = None ->
   updateVolume w = Ret (mutedSign ++ " ERR")) /\
  (Output w "awk" [awkProgram; "/proc/net/wireless"] = None ->
   updateWifi w = wifiSignOff ++ " ERR") /\
  (OpenLines w "/proc/net/dev" = None ->
   updateNetUse sc w st =
     (netReceivedSign ++ " ERR " ++ netTransmittedSign ++ " ERR", st)) /\
  (ReadFile w "/proc/loadavg" = None ->
   updateCPUUse sc w = cpuSign ++ "ERR") /\
  (OpenLines w "/sys/class/thermal/thermal_zone1/temp" = None ->
   updateCPUTemp w = cpuTempSign ++ " ERR") /\
  (OpenLines w "/proc/meminfo" = None ->
   updateMemUse sc w = memSign ++ "ERR") /\
  (ReadFile w (powerSupply ++ "AC/online") = None ->
   updatePower w = "|ERR") /\
  (ReadDir w powerSupply = None -> updatePower w = "|ERR") /\
  ((forall name field,
      ReadFile w (powerSupply ++ name ++ "/" ++ "energy_" ++ field) = None /\
      ReadFile w (powerSupply ++ name ++ "/" ++ "charge_" ++ field) = None) ->
   updatePower w = "|ERR") /\
  (ReadFile w "/home/john/tmp/avgping" = None -> net_ping sc w = "") /\
  (Output w "acpi" ["-b"] = None -> updatePowerTime w = Ret "unknown") /\
  (OpenLines w "/home/john/.config/xmodmap_switcher/state" = None ->
   updateKeyboard w = keyboardSign ++ " default") /\
  (Output w "uname" ["-a"] = None -> getDistroSign w = Ret distroSignDefault) /\
  (all_absent w ->
   tick sc w distroSign st =
     Ret (mkTick
            (Strings.Join
               (fallback_status
                  (NowFormat w (dateSeparator ++ " Mon Jan 02 15:04"))
                  distroSign)
               fieldSeparator)
            st (sleep_duration (Now w)))).
Proof.
  repeat match goal with |- _ /\ _ => split end.
  - intros H. unfold updateVolume. now rewrite H.
  - intros H. unfold updateWifi. now rewrite H.
  - intros H. unfold updateNetUse. now rewrite H.
  - intros H. unfold updateCPUUse. now rewrite H.
  - intros H. unfold updateCPUTemp. now rewrite H.
  - intros H. unfold updateMemUse. now rewrite H.
  - intros H. unfold updatePower. now rewrite H.
  - intros H. unfold updatePower. rewrite H.
    now destruct (ReadFile w (powerSupply ++ "AC/online")).
  - intros H. unfold updatePower.
    destruct (ReadFile w (powerSupply ++ "AC/online")); [|reflexivity].
    destruct (ReadDir w powerSupply); [|reflexivity].
    now rewrite (batt_totals_absent w _ H).
  - intros H. unfold net_ping. now rewrite H.
  - intros H. unfold updatePowerTime. now rewrite H.
  - intros H. unfold updateKeyboard. now rewrite H.
  - intros H. unfold getDistroSign. now rewrite H.
  - intros (Hvol & Hwifi & Hnet & Hcpu & Htemp & Hmem & Hpow & Hacpi & Hkbd).
    unfold tick, status, fallback_status.
    unfold updateVolume, updateWifi, updateNetUse, updateCPUUse,
      updateCPUTemp, updateMemUse, updatePower, updatePowerTime,
      updateKeyboard.
    rewrite Hvol, Hwifi, Hnet, Hcpu, Htemp, Hmem, Hpow, Hacpi, Hkbd.
    reflexivity.
Qed.

Lemma samplers_fall_back_witness :
  tick GoScanf.instance absent_world distroSignDefault initial_state =
  Ret (mkTick
         (Strings.Join
            (fallback_status
               (NowFormat absent_world (dateSeparator ++ " Mon Jan 02 15:04"))
               distroSignDefault)
            fieldSeparator)
         initial_state (sleep_duration (Now absent_world))).
Proof.
  apply (samplers_fall_back GoScanf.instance absent_world distroSignDefault
           initial_state).
  repeat split.
Defined.

(** ** Examples *)

Example fixed_0 : fixed "rx" 0 = "rx 0.0b".
Proof. reflexivity. Qed.

Example fixed_5 : fixed "" 5 = " 5.0b".
Proof. reflexivity. Qed.

Example fixed_42 : fixed "rx" 42 = "rx42.0b".
Proof. reflexivity. Qed.

Example fixed_999 : fixed "rx" 999 = "rx 999b".
Proof. reflexivity. Qed.

Example fixed_1000 : fixed "rx" 1000 = "rx 0.9K".
Proof. reflexivity. Qed.

Example fixed_1500000 : fixed "rx" 1500000 = "rx 1.4M".
Proof. reflexivity. Qed.

Example fixed_max : fixed "rx" (1000 * 1024 * 1024 - 1) = "rx 999M".
Proof. reflexivity. Qed.

Example fixed_over : fixed "rx" (1000 * 1024 * 1024) = "rx ERR".
Proof. reflexivity. Qed.

Example fixed_neg : fixed "rx" (-1) = "rx ERR".
Proof. reflexivity. Qed.

Example itoa_max : Fmt.itoa Int.max_int = "9223372036854775807".
Proof. reflexivity. Qed.

Example itoa_min : Fmt.itoa Int.min_int = "-9223372036854775808".
Proof. reflexivity. Qed.

Example Atoi_trimmed : Fmt.Atoi (Strings.TrimSpace (" 5000" ++ nl)) = Some 5000.
Proof. reflexivity. Qed.

Example timeRx_last_time_of_first_line :
  Regexp.FindStringSubmatch timeRx 1
    ("a 01:02:03 b 04:05:06 c" ++ nl ++ "07:08:09")
  = ["a 01:02:03 b 04:05:06 c"; "04:05:06"].
Proof. reflexivity. Qed.

Example updateVolume_unmuted :
  updateVolume
    (with_output absent_world "pacmd"
       ("volume: front-left: 32768 /  50% / -18.06 dB,   "
          ++ "front-right: 32768 /  50% / -18.06 dB" ++ nl ++ "muted: no" ++ nl))
  = Ret (volSign ++ " 50%").
Proof. vm_compute. reflexivity. Qed.

Example getDistroSign_arch :
  getDistroSign (with_output absent_world "uname" "Linux host 6.1.0-arch1-1")
  = Ret distroSignArch.
Proof. vm_compute. reflexivity. Qed.

Example updateCPUUse_half :
  updateCPUUse GoScanf.instance
    (mkWorld (fun _ => Some ("2.0 1.5 1.0 1/234 5678" ++ nl)) (fun _ => None)
       (fun _ => None) (fun _ _ => None) (fun _ => "") (Time.mkTime 0 0) 4)
  = cpuSign ++ " 50%".
Proof. vm_compute. reflexivity. Qed.

(** * Further properties of the code *)

(** ** The rate formatter, tier by tier *)

(** X1. What [fixed] prints in each tier: the rate itself in the B/s tier, the
    rate divided by 1024 and the digit [(rate / 102) mod 10] in the KiB/s
    tier, the rate divided by 1024 * 1024 and the digit
    [(rate / 1024 / 102) mod 10] in the MiB/s tier, each in the field of
    four bytes and followed by the suffix of the tier. *)
Theorem fixed_tier_rendering (pre : string) (r : Z) :
  (0 <= r < 1000 ->
   fixed pre r = pre ++ rate_field r 0 ++ bpsSign /\
   Strings.HasSuffix (fixed pre r) bpsSign = true) /\
  (1000 <= r < 1000 * 1024 ->
   fixed pre r = pre ++ rate_field (r / 1024) (r / 102 mod 10) ++ kibpsSign /\
   Strings.HasSuffix (fixed pre r) kibpsSign = true) /\
  (1000 * 1024 <= r < 1000 * 1024 * 1024 ->
   fixed pre r =
     pre ++ rate_field (r / (1024 * 1024)) (r / 1024 / 102 mod 10)
       ++ mibpsSign /\
   Strings.HasSuffix (fixed pre r) mibpsSign = true).
Proof.
  assert (forall field suf s,
            s = pre ++ field ++ suf ->
            s = pre ++ field ++ suf /\ Strings.HasSuffix s suf = true) as Hsuf.
  { intros field suf s ->. split; [reflexivity|].
    rewrite <- !StringsFacts.app_assoc. apply StringsFacts.HasSuffix_app. }
  split; [|split]; intros H; apply Hsuf; unfold fixed;
    destruct (Z.ltb_spec r 0); try lia;
    destruct (Z.geb_spec r (1000 * 1024 * 1024)); try lia;
    destruct (Z.geb_spec r (1000 * 1024)); try lia;
    try (destruct (Z.geb_spec r 1000); try lia).
  - apply fixed_format_field; lia.
  - rewrite !Z.quot_div_nonneg by lia.
    rewrite Z.rem_mod_nonneg by (try apply Z.div_pos; lia).
    apply fixed_format_field.
    + split; [apply Z.div_pos | apply Z.div_lt_upper_bound]; lia.
    + apply Z.mod_pos_bound; lia.
  - assert (0 <= r / 1024) by (apply Z.div_pos; lia).
    rewrite (Z.quot_div_nonneg r 1024) by lia.
    rewrite (Z.quot_div_nonneg (r / 1024) 102) by lia.
    rewrite (Z.quot_div_nonneg r (1024 * 1024)) by lia.
    rewrite Z.rem_mod_nonneg by (try apply Z.div_pos; lia).
    apply fixed_format_field.
    + split; [apply Z.div_pos | apply Z.div_lt_upper_bound]; lia.
    + apply Z.mod_pos_bound; lia.
Qed.

Lemma fixed_tier_rendering_witness :
  fixed "rx" 123456 =
    "rx" ++ rate_field (123456 / 1024) (123456 / 102 mod 10) ++ kibpsSign /\
  Strings.HasSuffix (fixed "rx" 123456) kibpsSign = true.
Proof.
  apply (proj1 (proj2 (fixed_tier_rendering "rx" 123456))). lia.
Defined.

(** X2. The decimal digit is [(rate / 102) mod 10], not the tenths of the
    scaled rate: from 1020 to 1023 bytes per second the quotient by 102 is
    10, and [fixed] prints 0.0K, below the 0.9K it prints from 1000 to
    1019. *)
Theorem fixed_kib_digit_wraps (pre : string) (r : Z) :
  (1000 <= r < 1020 -> fixed pre r = pre ++ " 0.9K") /\
  (1020 <= r < 1024 -> fixed pre r = pre ++ " 0.0K").
Proof.
  split; intros H; unfold fixed;
    (destruct (Z.ltb_spec r 0); [lia|]);
    (destruct (Z.geb_spec r (1000 * 1024 * 1024)); [lia|]);
    (destruct (Z.geb_spec r (1000 * 1024)); [lia|]);
    (destruct (Z.geb_spec r 1000); [|lia]);
    rewrite (Z.quot_small r 1024) by lia;
    rewrite (Z.quot_div_nonneg r 102) by lia.
  - replace (r / 102) with 9 by (apply (Z.div_unique r 102 9 (r - 918)); lia).
    reflexivity.
  - replace (r / 102) with 10 by (apply (Z.div_unique r 102 10 (r - 1020)); lia).
    reflexivity.
Qed.

Lemma fixed_kib_digit_wraps_witness :
  fixed "rx" 1019 = "rx" ++ " 0.9K" /\ fixed "rx" 1023 = "rx" ++ " 0.0K".
Proof.
  split.
  - apply (proj1 (fixed_kib_digit_wraps "rx" 1019)). lia.
  - apply (proj2 (fixed_kib_digit_wraps "rx" 1023)). lia.
Defined.

(** ** Network: a counter that goes backwards *)

Lemma fixed_negative pre r : r < 0 -> fixed pre r = pre ++ " ERR".
Proof.
  intros H. unfold fixed. destruct (Z.ltb_spec r 0); [reflexivity | lia].
Qed.

(** X3. When the interface file opens and a summed total is below the carried
    one (an interface went away, or its counter was reset), the rate of
    that direction is rendered as ERR, the text of a failed read. *)
Theorem updateNetUse_counter_reset (sc : Scanf) (w : World) (st : NetState)
    (lines : list string) (rxNow txNow : Z) :
  OpenLines w "/proc/net/dev" = Some lines ->
  net_totals sc lines = (rxNow, txNow) ->
  (0 <= rxNow < rxOld st -> rxOld st <= Int.max_int ->
   fst (updateNetUse sc w st) =
     (netReceivedSign ++ " ERR") ++ " "
       ++ fixed netTransmittedSign (Int.sub txNow (txOld st))
       ++ net_ping sc w) /\
  (0 <= txNow < txOld st -> txOld st <= Int.max_int ->
   fst (updateNetUse sc w st) =
     fixed netReceivedSign (Int.sub rxNow (rxOld st)) ++ " "
       ++ (netTransmittedSign ++ " ERR") ++ net_ping sc w) /\
  snd (updateNetUse sc w st) = mkNetState rxNow txNow.
Proof.
  intros Ho Ht.
  assert (forall now old, 0 <= now < old -> old <= Int.max_int ->
            Int.sub now old < 0) as Hneg.
  { intros now old H1 H2. unfold Int.sub.
    rewrite IntFacts.wrap_small; [lia|].
    unfold Int.in_range, Int.min_int, Int.max_int in *. lia. }
  unfold updateNetUse. rewrite Ho, Ht. cbn [fst snd].
  split; [|split; [|reflexivity]]; intros H1 H2.
  - now rewrite (fixed_negative netReceivedSign _ (Hneg _ _ H1 H2)).
  - rewrite (fixed_negative netTransmittedSign _ (Hneg _ _ H1 H2)).
    now rewrite !StringsFacts.app_assoc.
Qed.

Lemma updateNetUse_counter_reset_witness :
  fst (updateNetUse GoScanf.instance netdev_world (mkNetState 200000 0)) =
    (netReceivedSign ++ " ERR") ++ " "
      ++ fixed netTransmittedSign (Int.sub 2048 0)
      ++ net_ping GoScanf.instance netdev_world.
Proof.
  refine (proj1 (updateNetUse_counter_reset GoScanf.instance netdev_world
                   (mkNetState 200000 0) netdev_lines 123456 2048
                   eq_refl eq_refl) _ _).
  - cbn [rxOld]. lia.
  - cbn [rxOld]. unfold Int.max_int. lia.
Defined.

(** ** Network: what the loop sums *)

Lemma add_wrap_l a b : Int.add (Int.wrap a) b = Int.wrap (a + b).
Proof.
  unfold Int.add, Int.wrap. f_equal.
  replace ((a + 2 ^ 63) mod 2 ^ 64 - 2 ^ 63 + b + 2 ^ 63)
    with ((a + 2 ^ 63) mod 2 ^ 64 + b) by lia.
  rewrite Z.add_mod_idemp_l by lia. f_equal. lia.
Qed.

Lemma net_fold_sum (sc : Scanf) (lines : list string) :
  forall scanned ops a b,
    Forall2 (scans_as sc) lines scanned ->
    let '(_, _, _, rxNow, txNow) :=
      fold_left (net_step sc) lines (ops, Int.wrap a, Int.wrap b) in
    rxNow = Int.wrap (a + fst (counted_totals scanned)) /\
    txNow = Int.wrap (b + snd (counted_totals scanned)).
Proof.
  induction lines as [|line rest IH]; intros scanned ops a b H.
  - inversion H; subst. destruct ops as [[dev rx] tx]. cbn.
    now rewrite !Z.add_0_r.
  - inversion H as [|? p ? scanned' Hp Hrest]; subst.
    destruct ops as [[dev rx] tx]. destruct p as [[pdev prx] ptx].
    cbn [fold_left counted_totals].
    unfold net_step at 2.
    destruct (Hp (dev, rx, tx)) as [Hd Hc]. cbn [fst snd] in Hd, Hc.
    destruct (scan_net sc line (dev, rx, tx)) as [[dev' rx'] tx'] eqn:E.
    cbn [fst] in Hd. subst dev'.
    destruct (counted_totals scanned') as [r t] eqn:Ec.
    destruct (netDevs_has pdev) eqn:En.
    + injection (Hc eq_refl) as -> ->.
      rewrite !add_wrap_l.
      specialize (IH scanned' (pdev, prx, ptx) (a + prx) (b + ptx) Hrest).
      rewrite Ec in IH. cbn [fst snd] in IH |- *.
      destruct (fold_left _ rest _) as [[[[? ?] ?] rxNow] txNow].
      destruct IH as [-> ->]. split; f_equal; lia.
    + specialize (IH scanned' (pdev, rx', tx') a b Hrest).
      rewrite Ec in IH. exact IH.
Qed.

(** X4. When every line scans as a device, and the lines of the devices in
    [netDevs] scan completely, the totals are the sums of their received
    and transmitted bytes, wrapped around to the range of [int]; the other
    lines, the two header lines among them, add nothing. *)
Theorem net_totals_sum (sc : Scanf) (lines : list string)
    (scanned : list (string * Z * Z)) :
  Forall2 (scans_as sc) lines scanned ->
  net_totals sc lines =
    (Int.wrap (fst (counted_totals scanned)),
     Int.wrap (snd (counted_totals scanned))).
Proof.
  intros H. unfold net_totals.
  pose proof (net_fold_sum sc lines scanned ("", 0, 0) 0 0 H) as P.
  change (Int.wrap 0) with 0 in P.
  destruct (fold_left _ lines _) as [[[[? ?] ?] rxNow] txNow].
  destruct P as [-> ->]. reflexivity.
Qed.

Lemma net_totals_sum_witness :
  net_totals GoScanf.instance netdev_lines =
    (Int.wrap (fst (counted_totals
                      [("Inter-|", 0, 0); ("lo:", 1000, 1000);
                       ("eth0:", 123456, 2048)])),
     Int.wrap (snd (counted_totals
                      [("Inter-|", 0, 0); ("lo:", 1000, 1000);
                       ("eth0:", 123456, 2048)]))).
Proof.
  apply (net_totals_sum GoScanf.instance netdev_lines).
  apply Forall2_cons;
    [|apply Forall2_cons; [|apply Forall2_cons; [|apply Forall2_nil]]];
    intros [[dev rx] tx]; (split; [reflexivity|]);
    intros H; first [discriminate H | reflexivity].
Defined.

Lemma fold_left_snoc {A B : Type} (f : A -> B -> A) (l : list B) (x : B)
    (a : A) :
  fold_left f (l ++ [x]) a = f (fold_left f l a) x.
Proof. now rewrite fold_left_app. Qed.

(** X5. The operands of [Sscanf] outlive the iteration: after a line of a
    counted device, a line on which nothing scans (an empty one, say)
    leaves the device and its numbers in place, and they are added to the
    totals a second time. *)
Theorem net_unscanned_line_recounts (sc : Scanf) (lines : list string)
    (blank dev : string) (rx tx rxNow txNow : Z) :
  (forall ops, scan_net sc blank ops = ops) ->
  fold_left (net_step sc) lines ("", 0, 0, 0, 0)
    = (dev, rx, tx, rxNow, txNow) ->
  netDevs_has dev = true ->
  net_totals sc lines = (rxNow, txNow) /\
  net_totals sc (lines ++ [blank]) = (Int.add rxNow rx, Int.add txNow tx).
Proof.
  intros Hb Hf Hd. unfold net_totals.
  rewrite fold_left_snoc, Hf. split; [reflexivity|].
  unfold net_step. now rewrite Hb, Hd.
Qed.

Lemma net_unscanned_line_recounts_witness :
  net_totals GoScanf.instance netdev_lines = (123456, 2048) /\
  net_totals GoScanf.instance (netdev_lines ++ [""])
    = (Int.add 123456 123456, Int.add 2048 2048).
Proof.
  apply (net_unscanned_line_recounts GoScanf.instance netdev_lines ""
           "eth0:" 123456 2048 123456 2048).
  - intros [[dev rx] tx]. reflexivity.
  - reflexivity.
  - reflexivity.
Defined.

(** ** Trimming what was printed *)

Lemma string_all_app f s t :
  string_all f (s ++ t) = string_all f s && string_all f t.
Proof.
  induction s as [|c s IH]; cbn [append string_all]; [reflexivity|].
  now rewrite IH, andb_assoc.
Qed.

Lemma utoa_aux_all f fuel :
  (forall x, 0 <= x < 10 -> f (Fmt.digit_char x) = true) ->
  forall n acc,
    string_all f acc = true -> string_all f (Fmt.utoa_aux fuel n acc) = true.
Proof.
  intros Hf. induction fuel as [|fuel IH]; intros n acc H;
    cbn [Fmt.utoa_aux]; [exact H|].
  assert (string_all f (String (Fmt.digit_char (n mod 10)) acc) = true) as H'.
  { cbn [string_all]. rewrite H, Hf; [reflexivity|].
    apply Z.mod_pos_bound; lia. }
  destruct (n <? 10); [exact H' | now apply IH].
Qed.

Lemma digit_char_not_space x :
  0 <= x < 10 -> negb (Strings.is_space (Fmt.digit_char x)) = true.
Proof.
  intros H. pose proof (FmtFacts.digit_char_cases x H) as C. cbn [In] in C.
  repeat (destruct C as [C|C]; [rewrite <- C; reflexivity|]).
  contradiction.
Qed.

(** What [%d] prints has no white space in it. *)
Lemma itoa_no_space n :
  string_all (fun c => negb (Strings.is_space c)) (Fmt.itoa n) = true.
Proof.
  unfold Fmt.itoa, Fmt.utoa.
  destruct (n <? 0); cbn [append string_all];
    apply (utoa_aux_all _ _ digit_char_not_space); reflexivity.
Qed.

Lemma trim_left_none f s :
  string_all (fun c => negb (f c)) s = true -> Strings.trim_left f s = s.
Proof.
  destruct s as [|c s]; [reflexivity|]. cbn [string_all Strings.trim_left].
  now destruct (f c).
Qed.

Lemma trim_left_all f s t :
  string_all f s = true -> Strings.trim_left f (s ++ t) = Strings.trim_left f t.
Proof.
  induction s as [|c s IH]; [reflexivity|].
  cbn [string_all append Strings.trim_left].
  destruct (f c); [exact IH | discriminate].
Qed.

Lemma trim_right_all f t :
  string_all f t = true -> Strings.trim_right f t = "".
Proof.
  induction t as [|c t IH]; [reflexivity|].
  cbn [string_all Strings.trim_right].
  destruct (f c); [|discriminate]. intros H. now rewrite IH.
Qed.

Lemma trim_right_app f s t :
  string_all (fun c => negb (f c)) s = true -> string_all f t = true ->
  Strings.trim_right f (s ++ t) = s.
Proof.
  intros Hs Ht. induction s as [|c s IH].
  - now apply trim_right_all.
  - cbn [string_all] in Hs. apply andb_prop in Hs. destruct Hs as [Hc Hs].
    cbn [append Strings.trim_right]. rewrite (IH Hs).
    destruct s; [|reflexivity]. now destruct (f c).
Qed.

Lemma utoa_printed n : string_all printed_byte (Fmt.utoa n) = true.
Proof.
  unfold Fmt.utoa. apply utoa_aux_all; [|reflexivity].
  intros x H. pose proof (FmtFacts.digit_char_cases x H) as C. cbn [In] in C.
  repeat (destruct C as [C|C]; [rewrite <- C; reflexivity|]).
  contradiction.
Qed.

(** What [%d] prints is made of digits and a minus sign. *)
Lemma itoa_printed n : string_all printed_byte (Fmt.itoa n) = true.
Proof.
  unfold Fmt.itoa. destruct (n <? 0); [|apply utoa_printed].
  cbn [append string_all]. now rewrite utoa_printed.
Qed.

Lemma itoa_nonempty n : Fmt.itoa n <> "".
Proof.
  unfold Fmt.itoa. destruct (n <? 0); [discriminate|].
  apply FmtFacts.utoa_nonempty.
Qed.

(** No encoding of white space has a digit or a minus sign in it. *)
Lemma space_runes_not_printed :
  Forall (fun p => exists d p',
            p = String d p' /\ printed_byte d = false /\
            string_all printed_byte p = false) Strings.space_runes.
Proof.
  unfold Strings.space_runes. cbn [map].
  repeat (apply Forall_cons; [eexists _, _; repeat split|]).
  apply Forall_nil.
Qed.

Lemma strip_suffix_Some suf s r :
  Strings.strip_suffix suf s = Some r -> s = r ++ suf.
Proof.
  revert r. induction s as [|c s IH]; intros r; cbn [Strings.strip_suffix].
  - destruct (String.eqb_spec "" suf) as [<- | ]; [|discriminate].
    now intros [= <-].
  - destruct (String.eqb_spec (String c s) suf) as [<- | ].
    + now intros [= <-].
    + destruct (Strings.strip_suffix suf s) as [r'|]; [|discriminate].
      intros [= <-]. cbn [append]. now rewrite (IH r' eq_refl).
Qed.

Lemma strip_suffix_app suf x : Strings.strip_suffix suf (x ++ suf) = Some x.
Proof.
  induction x as [|c x IH]; cbn [append].
  - destruct suf; cbn [Strings.strip_suffix]; now rewrite String.eqb_refl.
  - cbn [Strings.strip_suffix]. rewrite IH.
    destruct (String.eqb_spec (String c (x ++ suf)) suf) as [E|]; [|reflexivity].
    apply (f_equal String.length) in E.
    cbn [String.length] in E. rewrite StringsFacts.length_app in E. lia.
Qed.

Lemma first_prefix_none l s :
  Forall (fun p => Strings.strip_prefix p s = None) l ->
  Strings.first_prefix l s = None.
Proof.
  induction 1 as [|p l Hp _ IH]; [reflexivity|].
  cbn [Strings.first_prefix]. now rewrite Hp.
Qed.

Lemma first_suffix_none l s :
  Forall (fun p => Strings.strip_suffix p s = None) l ->
  Strings.first_suffix l s = None.
Proof.
  induction 1 as [|p l Hp _ IH]; [reflexivity|].
  cbn [Strings.first_suffix]. now rewrite Hp.
Qed.

(** Nothing is trimmed on the left of a string that starts with a digit
    or a minus sign, nothing on the right of one made of them. *)
Lemma trim_left_space_printed fuel c s :
  printed_byte c = true ->
  Strings.trim_left_space fuel (String c s) = String c s.
Proof.
  intros Hc. destruct fuel as [|fuel]; [reflexivity|].
  cbn [Strings.trim_left_space]. rewrite first_prefix_none; [reflexivity|].
  eapply Forall_impl; [|exact space_runes_not_printed].
  intros p (d & p' & -> & Hd & _). cbn [Strings.strip_prefix].
  destruct (Ascii.eqb_spec d c) as [-> | ]; [congruence | reflexivity].
Qed.

Lemma trim_right_space_printed fuel s :
  string_all printed_byte s = true ->
  Strings.trim_right_space fuel s = s.
Proof.
  intros Hs. destruct fuel as [|fuel]; [reflexivity|].
  cbn [Strings.trim_right_space]. rewrite first_suffix_none; [reflexivity|].
  eapply Forall_impl; [|exact space_runes_not_printed].
  intros p (d & p' & -> & _ & Hp).
  destruct (Strings.strip_suffix (String d p') s) as [r|] eqn:E;
    [|reflexivity].
  apply strip_suffix_Some in E. rewrite E, string_all_app, Hp in Hs.
  now rewrite andb_false_r in Hs.
Qed.

Lemma append_last_inj x y a b :
  x ++ String a "" = y ++ String b "" -> a = b.
Proof.
  revert y. induction x as [|c x IH]; intros [|d y] H; cbn [append] in H.
  - now injection H.
  - injection H as _ H. destruct y; discriminate H.
  - injection H as _ H. destruct x; discriminate H.
  - injection H as _ H. exact (IH y H).
Qed.

(** [TrimSpace] takes the line feed after a printed number away, and
    nothing else. *)
Lemma TrimSpace_itoa_nl n : Strings.TrimSpace (Fmt.itoa n ++ nl) = Fmt.itoa n.
Proof.
  unfold Strings.TrimSpace.
  pose proof (itoa_printed n) as P. pose proof (itoa_nonempty n) as N.
  destruct (Fmt.itoa n) as [|c s] eqn:E; [contradiction|].
  cbn [string_all] in P. apply andb_prop in P. destruct P as [Pc Ps].
  cbn [append]. rewrite trim_left_space_printed by exact Pc.
  cbn [String.length Strings.trim_right_space].
  assert (Strings.first_suffix Strings.space_runes (String c (s ++ nl))
          = Some (String c s)) as ->.
  { unfold Strings.space_runes. cbn [map Strings.first_suffix].
    change (String c (s ++ nl)) with (String c s ++ nl).
    destruct (Strings.strip_suffix (Strings.bytes [9%N]) (String c s ++ nl))
      as [r|] eqn:E9.
    - exfalso. apply strip_suffix_Some in E9.
      apply append_last_inj in E9. discriminate E9.
    - now rewrite (strip_suffix_app nl (String c s)
                   : Strings.strip_suffix (Strings.bytes [10%N]) _ = _). }
  apply trim_right_space_printed. cbn [string_all]. now rewrite Pc, Ps.
Qed.

(** ** Battery: readings and sums *)

(** X6. A battery file that holds a number of the range of [int] in decimal,
    followed by a line feed, reads as that number; the [energy_] file is
    the one that counts when it is there, and the [charge_] file is only
    read without it: an [energy_] file that does not hold a number reads
    as 0 whatever the [charge_] file holds. *)
Theorem readval_decimal (w : World) (name field : string) (v : Z) :
  Int.in_range v ->
  (ReadFile w (powerSupply ++ name ++ "/" ++ "energy_" ++ field)
     = Some (Fmt.itoa v ++ nl) ->
   readval w name field = v) /\
  (ReadFile w (powerSupply ++ name ++ "/" ++ "energy_" ++ field) = None ->
   ReadFile w (powerSupply ++ name ++ "/" ++ "charge_" ++ field)
     = Some (Fmt.itoa v ++ nl) ->
   readval w name field = v) /\
  (forall junk,
     ReadFile w (powerSupply ++ name ++ "/" ++ "energy_" ++ field)
       = Some junk ->
     Fmt.Atoi (Strings.TrimSpace junk) = None ->
     readval w name field = 0).
Proof.
  intros Hv.
  assert (Fmt.Atoi (Strings.TrimSpace (Fmt.itoa v ++ nl)) = Some v) as E.
  { rewrite TrimSpace_itoa_nl. now apply FmtFacts.Atoi_itoa. }
  unfold readval. rewrite !StringsFacts.app_assoc.
  split; [|split].
  - intros ->. now rewrite E.
  - intros -> ->. now rewrite E.
  - intros junk -> ->. reflexivity.
Qed.

Lemma readval_decimal_witness :
  readval two_batteries "BAT1" "full" = 2000.
Proof.
  refine (proj1 (proj2 (readval_decimal two_batteries "BAT1" "full" 2000 _))
            eq_refl eq_refl).
  unfold Int.in_range, Int.min_int, Int.max_int. lia.
Defined.

Lemma batt_fold_sum (w : World) (batts : list string) :
  forall a b,
    fold_left (batt_step w) batts (Int.wrap a, Int.wrap b) =
    (Int.wrap (a + fst (battery_sums w batts)),
     Int.wrap (b + snd (battery_sums w batts))).
Proof.
  induction batts as [|name rest IH]; intros a b.
  - cbn. now rewrite !Z.add_0_r.
  - cbn [fold_left battery_sums]. unfold batt_step at 2.
    destruct (battery_sums w rest) as [f n] eqn:E.
    destruct (Strings.HasPrefix name "BAT"); cbn [negb].
    + rewrite !add_wrap_l, IH. cbn [fst snd]. f_equal; f_equal; lia.
    + now rewrite IH.
Qed.

Lemma batt_totals_wrap (w : World) (batts : list string) :
  batt_totals w batts =
    (Int.wrap (fst (battery_sums w batts)),
     Int.wrap (snd (battery_sums w batts))).
Proof.
  unfold batt_totals. change 0 with (Int.wrap 0) at 1 2.
  now rewrite batt_fold_sum.
Qed.

(** X7. The loop over the directory sums the readings of the entries whose
    name starts with BAT, wrapped around to the range of [int]; every
    other entry of the directory adds nothing. *)
Theorem batt_totals_sum (w : World) (batts : list string) :
  batt_totals w batts =
    (Int.wrap (fst (battery_sums w batts)),
     Int.wrap (snd (battery_sums w batts))) /\
  batt_totals w batts =
    batt_totals w (filter (fun name => Strings.HasPrefix name "BAT") batts).
Proof.
  split; [apply batt_totals_wrap|]. rewrite !batt_totals_wrap.
  assert (battery_sums w
            (filter (fun name => Strings.HasPrefix name "BAT") batts)
          = battery_sums w batts) as ->; [|reflexivity].
  induction batts as [|name rest IH]; [reflexivity|].
  cbn [filter battery_sums].
  destruct (Strings.HasPrefix name "BAT") eqn:E;
    cbn [battery_sums]; rewrite ?E, IH;
    now destruct (battery_sums w rest).
Qed.

Lemma battery_sums_perm (w : World) (l l' : list string) :
  Permutation l l' -> battery_sums w l = battery_sums w l'.
Proof.
  induction 1 as [|x l l' _ IH|x y l|l l' l'' _ IH1 _ IH2].
  - reflexivity.
  - cbn [battery_sums]. now rewrite IH.
  - cbn [battery_sums]. destruct (battery_sums w l) as [f n].
    destruct (Strings.HasPrefix x "BAT"), (Strings.HasPrefix y "BAT");
      try reflexivity; f_equal; lia.
  - congruence.
Qed.

(** X8. The fragment does not depend on the order in which the directory
    lists its entries. *)
Theorem updatePower_order (w w' : World) (batts batts' : list string) :
  ReadFile w = ReadFile w' ->
  ReadDir w powerSupply = Some batts ->
  ReadDir w' powerSupply = Some batts' ->
  Permutation batts batts' ->
  updatePower w = updatePower w'.
Proof.
  intros Hf Hd Hd' Hp.
  assert (forall name field, readval w name field = readval w' name field)
    as Hr by (intros; unfold readval; now rewrite Hf).
  assert (battery_sums w batts = battery_sums w' batts') as Hs.
  { rewrite (battery_sums_perm w _ _ Hp). clear Hd' Hp.
    induction batts' as [|name rest IH]; [reflexivity|].
    cbn [battery_sums]. now rewrite IH, !Hr. }
  unfold updatePower. rewrite Hd, Hd', <- Hf.
  rewrite (batt_totals_wrap w batts), (batt_totals_wrap w' batts'), Hs.
  reflexivity.
Qed.

Lemma updatePower_order_witness :
  updatePower two_batteries =
  updatePower (with_dir two_batteries powerSupply ["BAT1"; "AC"; "BAT0"]).
Proof.
  apply (updatePower_order two_batteries
           (with_dir two_batteries powerSupply ["BAT1"; "AC"; "BAT0"])
           ["AC"; "BAT0"; "BAT1"] ["BAT1"; "AC"; "BAT0"]).
  - reflexivity.
  - reflexivity.
  - reflexivity.
  - apply Permutation_sym, (Permutation_cons_app ["AC"; "BAT0"] []).
    apply Permutation_refl.
Defined.

Lemma d3_length p : 0 <= p < 1000 -> String.length (Fmt.d 3 p) = 3%nat.
Proof.
  intros H.
  destruct (Z.lt_ge_cases p 10); [|destruct (Z.lt_ge_cases p 100)].
  - unfold Fmt.d. rewrite FmtFacts.itoa_nonneg, FmtFacts.utoa_1 by lia.
    reflexivity.
  - unfold Fmt.d. rewrite FmtFacts.itoa_nonneg, FmtFacts.utoa_2 by lia.
    reflexivity.
  - rewrite FmtFacts.d3 by lia. reflexivity.
Qed.

(** X9. With a charge between empty and full, the percentage is between 0 and
    100, truncated, and the fragment is the two icons, the percentage in
    exactly three bytes and a percent sign. *)
Theorem updatePower_percent_range (w : World) (plugged : string)
    (batts : list string) (enFull enNow : Z) :
  ReadFile w (powerSupply ++ "AC/online") = Some plugged ->
  ReadDir w powerSupply = Some batts ->
  batt_totals w batts = (enFull, enNow) ->
  0 <= enNow <= enFull -> 0 < enFull -> enNow * 100 <= Int.max_int ->
  exists p,
    p = enNow * 100 / enFull /\ 0 <= p <= 100 /\
    String.length (Fmt.d 3 p) = 3%nat /\
    updatePower w =
      fst (power_icons plugged p) ++ snd (power_icons plugged p)
        ++ Fmt.d 3 p ++ "%".
Proof.
  intros Hp Hd Ht Hn Hf Hm.
  assert (Int.div (Int.mul enNow 100) enFull = enNow * 100 / enFull) as E.
  { unfold Int.mul. rewrite IntFacts.wrap_small
      by (unfold Int.in_range, Int.min_int, Int.max_int in *; lia).
    rewrite quot_wrap_in_range.
    - apply Z.quot_div_nonneg; lia.
    - unfold Int.in_range, Int.min_int, Int.max_int in *; lia.
    - lia.
    - right; lia. }
  assert (0 <= enNow * 100 / enFull <= 100) as R.
  { split; [apply Z.div_pos; lia|].
    apply Z.div_le_upper_bound; lia. }
  exists (enNow * 100 / enFull). repeat split; try lia.
  - apply d3_length. lia.
  - unfold updatePower. rewrite Hp, Hd, Ht.
    destruct (Z.eqb_spec enFull 0); [lia|]. rewrite E.
    now destruct (power_icons plugged (enNow * 100 / enFull)).
Qed.

Lemma updatePower_percent_range_witness :
  exists p,
    p = 2500 * 100 / 5000 /\ 0 <= p <= 100 /\
    String.length (Fmt.d 3 p) = 3%nat /\
    updatePower two_batteries =
      fst (power_icons ("0" ++ nl) p) ++ snd (power_icons ("0" ++ nl) p)
        ++ Fmt.d 3 p ++ "%".
Proof.
  apply (updatePower_percent_range two_batteries ("0" ++ nl)
           ["AC"; "BAT0"; "BAT1"] 5000 2500 eq_refl eq_refl eq_refl).
  - lia.
  - lia.
  - unfold Int.max_int. lia.
Defined.

(** ** Memory: where the loop stops *)

Lemma mem_loop_done (sc : Scanf) lines used total :
  mem_loop sc lines used total 15 = Some (used, total).
Proof. now destruct lines. Qed.

Lemma mem_flag_label bit :
  0 <= bit < 4 -> Z.testbit (mem_flag (mem_label bit)) bit = true.
Proof.
  intros H. assert (bit = 0 \/ bit = 1 \/ bit = 2 \/ bit = 3) as C by lia.
  destruct C as [-> | [-> | [-> | ->]]]; reflexivity.
Qed.

Lemma mem_flag_cases prop :
  In (mem_flag prop) [0; 1; 2; 4; 8].
Proof.
  unfold mem_flag. cbn [In].
  repeat destruct (String.eqb prop _); tauto.
Qed.

Lemma done_bound done prop :
  0 <= done < 16 -> 0 <= Z.lor done (mem_flag prop) < 16.
Proof.
  intros H. pose proof (mem_flag_cases prop) as F. cbn [In] in F.
  assert (done = 0 \/ done = 1 \/ done = 2 \/ done = 3 \/ done = 4 \/
          done = 5 \/ done = 6 \/ done = 7 \/ done = 8 \/ done = 9 \/
          done = 10 \/ done = 11 \/ done = 12 \/ done = 13 \/ done = 14 \/
          done = 15) as C by lia.
  repeat (destruct F as [F|F];
          [rewrite <- F;
           repeat (destruct C as [C|C]; [subst done; cbn; lia|]);
           subst done; cbn; lia|]).
  contradiction.
Qed.

Lemma done_full done :
  0 <= done < 16 ->
  (forall bit, 0 <= bit < 4 -> Z.testbit done bit = true) ->
  done = 15.
Proof.
  intros H B.
  pose proof (B 0 ltac:(lia)) as B0. pose proof (B 1 ltac:(lia)) as B1.
  pose proof (B 2 ltac:(lia)) as B2. pose proof (B 3 ltac:(lia)) as B3.
  assert (done = 0 \/ done = 1 \/ done = 2 \/ done = 3 \/ done = 4 \/
          done = 5 \/ done = 6 \/ done = 7 \/ done = 8 \/ done = 9 \/
          done = 10 \/ done = 11 \/ done = 12 \/ done = 13 \/ done = 14 \/
          done = 15) as C by lia.
  repeat (destruct C as [C|C];
          [subst done; first [discriminate B0 | discriminate B1
                             | discriminate B2 | discriminate B3]|]).
  exact C.
Qed.

Lemma mem_loop_stops (sc : Scanf) (rest : list string) (head : list string) :
  forall scanned used total done,
    map (scan_s_f64 sc) head = map Some scanned ->
    0 <= done < 16 ->
    (forall bit, 0 <= bit < 4 ->
       Z.testbit done bit = true \/
       exists val, In (mem_label bit, val) scanned) ->
    mem_loop sc (head ++ rest) used total done =
    mem_loop sc head used total done.
Proof.
  induction head as [|line head IH]; intros scanned used total done Hm Hd Hb.
  - destruct scanned; [|discriminate Hm].
    assert (done = 15) as ->.
    { apply done_full; [exact Hd|]. intros bit B.
      destruct (Hb bit B) as [T|[val []]]. exact T. }
    cbn [append]. now rewrite mem_loop_done, mem_loop_nil.
  - destruct scanned as [|[prop val] scanned]; [discriminate Hm|].
    cbn [map] in Hm. injection Hm as Hs Hm.
    destruct (Z.eqb_spec done 15) as [-> | Hn].
    + now rewrite !mem_loop_done.
    + cbn [app].
      rewrite !(mem_loop_cons sc line _ _ _ _ prop val)
        by (try apply Z.eqb_neq; assumption).
      apply (IH scanned); [exact Hm | now apply done_bound|].
      intros bit B. rewrite Z.lor_spec.
      destruct (Hb bit B) as [T|[v [Hi|Hi]]].
      * left. now rewrite T.
      * left. injection Hi as -> _. rewrite (mem_flag_label bit B).
        apply orb_true_r.
      * right. now exists v.
Qed.

(** X10. Once the four labels have been seen, the rest of the file is not
    read: what follows them changes nothing, not even a line that does
    not scan. *)
Theorem updateMemUse_stops_early (sc : Scanf) (w w' : World)
    (head rest : list string) (scanned : list (string * spec_float)) :
  OpenLines w "/proc/meminfo" = Some head ->
  OpenLines w' "/proc/meminfo" = Some (head ++ rest)%list ->
  map (scan_s_f64 sc) head = map Some scanned ->
  (forall bit, 0 <= bit < 4 -> exists val, In (mem_label bit, val) scanned) ->
  updateMemUse sc w' = updateMemUse sc w /\
  updateMemUse sc w' <> memSign ++ "ERR".
Proof.
  intros Ho Ho' Hm Hl.
  assert (mem_loop sc (head ++ rest) F64.zero F64.zero 0
          = mem_loop sc head F64.zero F64.zero 0) as E.
  { apply (mem_loop_stops sc rest head scanned); [exact Hm | lia|].
    intros bit B. right. now apply Hl. }
  assert (updateMemUse sc w' = updateMemUse sc w) as Eu
      by (unfold updateMemUse; now rewrite Ho, Ho', E).
  split; [exact Eu|]. rewrite Eu. unfold updateMemUse. rewrite Ho.
  assert (forall used total done,
            mem_loop sc head used total done <> None) as Hsome.
  { clear E Eu Ho Ho' Hl. revert scanned Hm.
    induction head as [|line head IH]; intros scanned Hm used total done.
    - now rewrite mem_loop_nil.
    - destruct scanned as [|[prop val] scanned]; [discriminate Hm|].
      cbn [map] in Hm. injection Hm as Hs Hm.
      destruct (Z.eqb_spec done 15) as [-> | Hn].
      + now rewrite mem_loop_done.
      + rewrite (mem_loop_cons sc line _ _ _ _ prop val)
          by (try apply Z.eqb_neq; assumption).
        now apply (IH scanned). }
  destruct (mem_loop sc head F64.zero F64.zero 0) as [[used total]|] eqn:El.
  - apply mem_format_not_err.
  - now elim (Hsome F64.zero F64.zero 0).
Qed.

Lemma updateMemUse_stops_early_witness :
  updateMemUse GoScanf.instance
    (with_lines absent_world "/proc/meminfo"
       (meminfo_lines ++ ["not a line of meminfo"]))
  = updateMemUse GoScanf.instance meminfo_world.
Proof.
  refine (proj1 (updateMemUse_stops_early GoScanf.instance meminfo_world
            (with_lines absent_world "/proc/meminfo"
               (meminfo_lines ++ ["not a line of meminfo"]))
            meminfo_lines ["not a line of meminfo"]
            [("MemTotal:", F64.of_int 16000000);
             ("MemFree:", F64.of_int 8000000);
             ("Buffers:", F64.of_int 1000000);
             ("Cached:", F64.of_int 2000000)]
            eq_refl eq_refl eq_refl _)).
  intros bit B.
  assert (bit = 0 \/ bit = 1 \/ bit = 2 \/ bit = 3) as C by lia.
  destruct C as [-> | [-> | [-> | ->]]]; eexists; cbn; tauto.
Defined.

Lemma mem_loop_prefix (sc : Scanf) (bit : Z) (rest head : list string) :
  0 <= bit < 4 ->
  forall scanned used total done,
    map (scan_s_f64 sc) head = map Some scanned ->
    (forall prop val, In (prop, val) scanned -> prop <> mem_label bit) ->
    Z.testbit done bit = false ->
    exists done',
      Z.testbit done' bit = false /\
      mem_loop sc (head ++ rest) used total done =
      mem_loop sc rest (fst (fold_left mem_step scanned (used, total)))
        (snd (fold_left mem_step scanned (used, total))) done'.
Proof.
  intros Hb. induction head as [|line head IH];
    intros scanned used total done Hm Hl Hd.
  - destruct scanned; [|discriminate Hm]. now exists done.
  - destruct scanned as [|[prop val] scanned]; [discriminate Hm|].
    cbn [map] in Hm. injection Hm as Hs Hm. cbn [app].
    rewrite (mem_loop_cons sc line _ _ _ _ prop val
               (done_not_15 _ _ Hb Hd) Hs).
    destruct (IH scanned (fst (mem_step (used, total) (prop, val)))
                (snd (mem_step (used, total) (prop, val)))
                (Z.lor done (mem_flag prop)) Hm) as (done' & Hd' & E).
    + intros p v Hi. apply (Hl p v). now right.
    + rewrite Z.lor_spec, Hd. apply mem_flag_bit; [exact Hb|].
      apply (Hl prop val). now left.
    + exists done'. split; [exact Hd'|]. rewrite E. cbn [fold_left].
      now destruct (mem_step (used, total) (prop, val)).
Qed.

(** X11. A line that does not scan, met while one of the four labels is still
    missing, turns the whole fragment into the ERR fragment, whatever was
    read before it and whatever follows. *)
Theorem updateMemUse_bad_line (sc : Scanf) (w : World)
    (head rest : list string) (bad : string)
    (scanned : list (string * spec_float)) (bit : Z) :
  OpenLines w "/proc/meminfo" = Some (head ++ bad :: rest)%list ->
  map (scan_s_f64 sc) head = map Some scanned ->
  0 <= bit < 4 ->
  (forall prop val, In (prop, val) scanned -> prop <> mem_label bit) ->
  scan_s_f64 sc bad = None ->
  updateMemUse sc w = memSign ++ "ERR".
Proof.
  intros Ho Hm Hb Hl Hbad. unfold updateMemUse. rewrite Ho.
  destruct (mem_loop_prefix sc bit (bad :: rest) head Hb scanned
              F64.zero F64.zero 0 Hm Hl (Z.testbit_0_l bit))
    as (done' & Hd' & ->).
  cbn [mem_loop]. now rewrite (done_not_15 _ _ Hb Hd'), Hbad.
Qed.

Lemma updateMemUse_bad_line_witness :
  updateMemUse GoScanf.instance
    (with_lines absent_world "/proc/meminfo"
       ["MemTotal: 16000000"; ""; "MemFree: 8000000"])
  = memSign ++ "ERR".
Proof.
  apply (updateMemUse_bad_line GoScanf.instance
           (with_lines absent_world "/proc/meminfo"
              ["MemTotal: 16000000"; ""; "MemFree: 8000000"])
           ["MemTotal: 16000000"] ["MemFree: 8000000"] ""
           [("MemTotal:", F64.of_int 16000000)] 1).
  - reflexivity.
  - reflexivity.
  - lia.
  - intros prop val [H|[]]. injection H as <- _. discriminate.
  - reflexivity.
Defined.

(** ** Temperature and keyboard: the last line *)

(** X12. Only the last line of the temperature file counts.  When it is a
    number of the range of [int] in decimal, the fragment shows it divided
    by 1000, truncated towards zero; a file without a line gives the ERR
    fragment. *)
Theorem updateCPUTemp_last_line (w : World) (lines : list string) (t : Z) :
  (OpenLines w "/sys/class/thermal/thermal_zone1/temp" = Some [] ->
   updateCPUTemp w = cpuTempSign ++ " ERR") /\
  (OpenLines w "/sys/class/thermal/thermal_zone1/temp"
     = Some (lines ++ [Fmt.itoa t])%list ->
   Int.in_range t ->
   updateCPUTemp w =
     cpuTempSign ++ " " ++ Fmt.itoa (Z.quot t 1000) ++ degreeSign ++ "C").
Proof.
  split.
  - intros H. unfold updateCPUTemp. now rewrite H.
  - intros H Ht. unfold updateCPUTemp. rewrite H, fold_left_snoc.
    rewrite FmtFacts.Atoi_itoa by assumption.
    rewrite quot_wrap_in_range; [reflexivity | assumption | lia | right; lia].
Qed.

Lemma updateCPUTemp_last_line_witness :
  updateCPUTemp
    (with_lines absent_world "/sys/class/thermal/thermal_zone1/temp"
       ["12000"; Fmt.itoa 45999])
  = cpuTempSign ++ " " ++ Fmt.itoa (Z.quot 45999 1000) ++ degreeSign ++ "C".
Proof.
  refine (proj2 (updateCPUTemp_last_line
            (with_lines absent_world "/sys/class/thermal/thermal_zone1/temp"
               ["12000"; Fmt.itoa 45999]) ["12000"] 45999) eq_refl _).
  unfold Int.in_range, Int.min_int, Int.max_int. lia.
Defined.

(** X13. The keyboard fragment shows the last line of the state file, and
    "default" when the file has no line. *)
Theorem updateKeyboard_last_line (w : World) (lines : list string)
    (last : string) :
  (OpenLines w "/home/john/.config/xmodmap_switcher/state" = Some [] ->
   updateKeyboard w = keyboardSign ++ " default") /\
  (OpenLines w "/home/john/.config/xmodmap_switcher/state"
     = Some (lines ++ [last])%list ->
   updateKeyboard w = keyboardSign ++ " " ++ last).
Proof.
  split; intros H; unfold updateKeyboard; rewrite H;
    [reflexivity | now rewrite fold_left_snoc].
Qed.

Lemma updateKeyboard_last_line_witness :
  updateKeyboard
    (with_lines absent_world "/home/john/.config/xmodmap_switcher/state"
       ["us"; "dvorak"])
  = keyboardSign ++ " " ++ "dvorak".
Proof.
  exact (proj2 (updateKeyboard_last_line
           (with_lines absent_world
              "/home/john/.config/xmodmap_switcher/state" ["us"; "dvorak"])
           ["us"] "dvorak") eq_refl).
Defined.

(** ** Wifi: trimming and padding again *)

Lemma string_all_impl (f g : ascii -> bool) s :
  (forall c, f c = true -> g c = true) ->
  string_all f s = true -> string_all g s = true.
Proof.
  intros H. induction s as [|c s IH]; [reflexivity|].
  cbn [string_all]. intros A. apply andb_prop in A. destruct A as [A B].
  now rewrite (H c A), IH.
Qed.

Lemma append_nil_r (s : string) : s ++ "" = s.
Proof. induction s; cbn [append]; congruence. Qed.

Lemma spaces_all k : string_all (fun c => Ascii.eqb c " ") (Fmt.spaces k) = true.
Proof. induction k; [reflexivity | exact IHk]. Qed.

Lemma utoa_aux_length fuel :
  forall n acc,
    (String.length acc <= String.length (Fmt.utoa_aux fuel n acc))%nat.
Proof.
  induction fuel as [|fuel IH]; intros n acc; cbn [Fmt.utoa_aux]; [lia|].
  destruct (n <? 10); [cbn [String.length]; lia|].
  specialize (IH (n / 10) (String (Fmt.digit_char (n mod 10)) acc)).
  cbn [String.length] in IH. lia.
Qed.

Lemma utoa_length_3 n : 100 <= n -> (3 <= String.length (Fmt.utoa n))%nat.
Proof.
  intros H. unfold Fmt.utoa.
  pose proof (Z.log2_le_mono 64 n ltac:(lia)) as L.
  change (Z.log2 64) with 6 in L.
  destruct (Z.to_nat (Z.log2 n)) as [|[|k]] eqn:E; [lia|lia|].
  cbn [Fmt.utoa_aux].
  destruct (Z.ltb_spec n 10); [lia|].
  assert (10 <= n / 10) by (apply Z.div_le_lower_bound; lia).
  destruct (Z.ltb_spec (n / 10) 10); [lia|].
  destruct (n / 10 / 10 <? 10); [cbn [String.length]; lia|].
  match goal with
  | |- (_ <= String.length (Fmt.utoa_aux ?f ?m ?acc))%nat =>
      pose proof (utoa_aux_length f m acc) as P
  end.
  cbn [String.length] in P. lia.
Qed.

(** [strings.Trim(s, " ")] on a number right-justified by [%3d]. *)
Lemma Trim_d3 n : Strings.Trim (Fmt.d 3 n) " " = Fmt.itoa n.
Proof.
  unfold Strings.Trim, Fmt.d, Fmt.pad_left. cbn [list_ascii_of_string existsb].
  assert (string_all
            (fun c => negb (Ascii.eqb c " " || false)) (Fmt.itoa n) = true)
    as N.
  { eapply string_all_impl; [|apply itoa_no_space].
    intros c Hc. destruct (Ascii.eqb_spec c " ") as [-> | ];
      [discriminate Hc | reflexivity]. }
  rewrite trim_left_all
    by (eapply string_all_impl; [|apply spaces_all];
        intros c Hc; cbv beta in Hc; now rewrite Hc).
  rewrite trim_left_none by exact N.
  rewrite <- (append_nil_r (Fmt.itoa n)) at 1.
  now apply trim_right_app.
Qed.

(** X14. When awk prints a strength from 0 upwards, right-justified in three
    bytes as its [%3.0f] does, the fragment is the icon of the strength
    (above 70, above 50, above 20, or off) and the strength right-justified
    in three bytes again, with a percent sign. *)
Theorem updateWifi_strength (w : World) (n : Z) :
  Output w "awk" [awkProgram; "/proc/net/wireless"] = Some (Fmt.d 3 n) ->
  0 <= n <= Int.max_int ->
  updateWifi w =
    (if n >? 70 then wifiSignFull
     else if n >? 50 then wifiSignHalf
     else if n >? 20 then wifiSignLow
     else wifiSignOff) ++ Fmt.d 3 n ++ "%".
Proof.
  intros Ho Hn. unfold updateWifi. rewrite Ho, Trim_d3.
  assert (Fmt.itoa n <> "") as Hne.
  { rewrite FmtFacts.itoa_nonneg by lia. apply FmtFacts.utoa_nonempty. }
  destruct (String.eqb_spec (Fmt.itoa n) ""); [contradiction|]. cbn [negb].
  rewrite FmtFacts.Atoi_itoa
    by (unfold Int.in_range, Int.min_int, Int.max_int in *; lia).
  set (icon := if n >? 70 then wifiSignFull
               else if n >? 50 then wifiSignHalf
               else if n >? 20 then wifiSignLow
               else wifiSignOff).
  destruct (Z.geb_spec n 100); [|destruct (Z.geb_spec n 10)].
  - unfold Fmt.d, Fmt.pad_left.
    pose proof (utoa_length_3 n ltac:(lia)) as L.
    rewrite <- FmtFacts.itoa_nonneg in L by lia.
    replace (3 - String.length (Fmt.itoa n))%nat with 0%nat by lia.
    reflexivity.
  - unfold Fmt.d. rewrite FmtFacts.itoa_nonneg, FmtFacts.utoa_2 by lia.
    reflexivity.
  - unfold Fmt.d. rewrite FmtFacts.itoa_nonneg, FmtFacts.utoa_1 by lia.
    reflexivity.
Qed.

Lemma updateWifi_strength_witness :
  updateWifi (with_output absent_world "awk" (Fmt.d 3 64))
  = wifiSignHalf ++ Fmt.d 3 64 ++ "%".
Proof.
  apply (updateWifi_strength (with_output absent_world "awk" (Fmt.d 3 64)) 64).
  - reflexivity.
  - unfold Int.max_int. lia.
Defined.

Lemma trim_left_all_nil f s :
  string_all f s = true -> Strings.trim_left f s = "".
Proof.
  intros H. rewrite <- (append_nil_r s). now rewrite trim_left_all.
Qed.

(** X15. When awk succeeds and prints nothing but blanks, or nothing at all
    (the wireless file has no third line), the fragment is the off icon
    and 0%. *)
Theorem updateWifi_blank (w : World) (out : string) :
  Output w "awk" [awkProgram; "/proc/net/wireless"] = Some out ->
  string_all (fun c => Ascii.eqb c " ") out = true ->
  updateWifi w = wifiSignOff ++ " 0%".
Proof.
  intros Ho Hb. unfold updateWifi. rewrite Ho.
  unfold Strings.Trim. cbn [list_ascii_of_string existsb].
  rewrite trim_left_all_nil; [reflexivity|].
  eapply string_all_impl; [|exact Hb].
  intros c Hc. cbv beta in Hc. now rewrite Hc.
Qed.

Lemma updateWifi_blank_witness :
  updateWifi (with_output absent_world "awk" "   ") = wifiSignOff ++ " 0%".
Proof.
  apply (updateWifi_blank (with_output absent_world "awk" "   ") "   ");
    reflexivity.
Defined.

(** ** The matcher finds only what the expression matches *)

Lemma substring_app_l p rest : substring 0 (String.length p) (p ++ rest) = p.
Proof.
  induction p as [|c p IH]; cbn [String.length append substring].
  - now destruct rest.
  - now rewrite IH.
Qed.

Lemma consumed_app p rest : Regexp.consumed (p ++ rest) rest = p.
Proof.
  unfold Regexp.consumed. rewrite StringsFacts.length_app.
  replace (String.length p + String.length rest - String.length rest)%nat
    with (String.length p) by lia.
  apply substring_app_l.
Qed.

Section RunSound.

Context {A : Type}.

(** What a successful run tells: a prefix was matched, and the
    continuation succeeded on the rest with the new captures. *)
Definition run_ok (r : Regexp.re) : Prop :=
  forall s cs (k : string -> Regexp.caps -> option A) a,
    Regexp.run r s cs k = Some a ->
    exists p rest new,
      s = p ++ rest /\ Matches r p new /\ k rest (new ++ cs)%list = Some a.

Lemma run_sound (r : Regexp.re) : run_ok r.
Proof.
  induction r as [|c|fl| |r1 IH1 r2 IH2|r1 IH1 r2 IH2|r IH|i r IH];
    intros s cs k a H; cbn [Regexp.run] in H.
  - exists "", s, []. repeat split; [constructor | exact H].
  - destruct s as [|x s]; [discriminate H|].
    destruct (Ascii.eqb_spec x c) as [-> | ]; [|discriminate H].
    exists (String c ""), s, []. repeat split; [constructor | exact H].
  - destruct s as [|x s]; [discriminate H|].
    destruct (fl || negb (Ascii.eqb x Regexp.newline)) eqn:E;
      [|discriminate H].
    exists (String x ""), s, []. repeat split; [now constructor | exact H].
  - destruct s as [|x s]; [discriminate H|].
    destruct (Regexp.is_digit x) eqn:E; [|discriminate H].
    exists (String x ""), s, []. repeat split; [now constructor | exact H].
  - apply IH1 in H. destruct H as (p1 & rest1 & n1 & -> & M1 & H).
    apply IH2 in H. destruct H as (p2 & rest & n2 & -> & M2 & H).
    exists (p1 ++ p2), rest, (n2 ++ n1)%list.
    rewrite StringsFacts.app_assoc, <- app_assoc.
    repeat split; [now constructor | exact H].
  - destruct (Regexp.run r1 s cs k) as [a'|] eqn:E.
    + apply IH1 in E. destruct E as (p & rest & n & -> & M & E).
      exists p, rest, n. repeat split; [now apply M_Alt_l | congruence].
    + apply IH2 in H. destruct H as (p & rest & n & -> & M & H).
      exists p, rest, n. repeat split; [now apply M_Alt_r | exact H].
  - revert H. generalize (String.length s) at 1. intros fuel.
    revert s cs. induction fuel as [|fuel IHf]; intros s cs H.
    + exists "", s, []. repeat split; [constructor | exact H].
    + match type of H with
      | match ?x with _ => _ end = _ => destruct x as [a'|] eqn:E
      end.
      * injection H as ->.
        apply IH in E. destruct E as (p1 & rest1 & n1 & -> & M1 & E).
        destruct (String.length rest1 <? String.length (p1 ++ rest1))%nat;
          [|discriminate E].
        apply IHf in E. destruct E as (p2 & rest & n2 & -> & M2 & E).
        exists (p1 ++ p2), rest, (n2 ++ n1)%list.
        rewrite StringsFacts.app_assoc, <- app_assoc.
        repeat split; [now apply M_Star_cons | exact E].
      * exists "", s, []. repeat split; [constructor | exact H].
  - apply IH in H. destruct H as (p & rest & n & -> & M & H).
    rewrite consumed_app in H.
    exists p, rest, ((i, p) :: n). repeat split; [now constructor | exact H].
Qed.

(** A greedy star never fails where its continuation succeeds at once. *)
Lemma run_star_some (r : Regexp.re) s cs
    (k : string -> Regexp.caps -> option A) :
  k s cs <> None -> Regexp.run (Regexp.Star r) s cs k <> None.
Proof.
  intros H. cbn [Regexp.run].
  destruct (String.length s) as [|fuel]; [exact H|].
  match goal with
  | |- match ?x with _ => _ end <> _ => destruct x
  end; [discriminate | exact H].
Qed.

End RunSound.

(** The leftmost match is a match of the expression inside the input. *)
Lemma search_sound (r : Regexp.re) (s whole : string) (cs : Regexp.caps) :
  Regexp.search r s = Some (whole, cs) ->
  exists pre rest, s = pre ++ whole ++ rest /\ Matches r whole cs.
Proof.
  induction s as [|c s IH]; intros H; cbn [Regexp.search] in H.
  - destruct (Regexp.run r "" [] _) as [m|] eqn:E; [|discriminate H].
    injection H as ->.
    apply run_sound in E. destruct E as (p & rest & n & Es & M & E).
    rewrite Es, consumed_app, app_nil_r in E. injection E as <- <-.
    exists "", rest. now split.
  - destruct (Regexp.run r (String c s) [] _) as [m|] eqn:E.
    + injection H as ->.
      apply run_sound in E. destruct E as (p & rest & n & Es & M & E).
      rewrite Es, consumed_app, app_nil_r in E. injection E as <- <-.
      exists "", rest. now split.
    + destruct (IH H) as (pre & rest & -> & M).
      exists (String c pre), rest. now split.
Qed.

Lemma Matches_lit l p n : Matches (Regexp.lit l) p n -> p = l /\ n = [].
Proof.
  revert p n. induction l as [|c l IH]; intros p n H; cbn [Regexp.lit] in H.
  - now inversion H.
  - inversion H as [| | | |? ? p1 p2 n1 n2 H1 H2| | | | |]; subst.
    inversion H1; subst. destruct (IH _ _ H2) as [-> ->]. now split.
Qed.

Lemma Matches_star_any fl p n :
  Matches (Regexp.Star (Regexp.Any fl)) p n -> n = [].
Proof.
  intros H. remember (Regexp.Star (Regexp.Any fl)) as r eqn:Er.
  induction H; try discriminate Er; [reflexivity|].
  injection Er as ->. inversion H; subst. now rewrite IHMatches2.
Qed.

Lemma Matches_star_digit p n :
  Matches (Regexp.Star Regexp.Digit) p n ->
  n = [] /\ string_all Regexp.is_digit p = true.
Proof.
  intros H. remember (Regexp.Star Regexp.Digit) as r eqn:Er.
  induction H; try discriminate Er; [now split|].
  injection Er as ->. inversion H; subst.
  destruct (IHMatches2 eq_refl) as [-> Hd]. split; [reflexivity|].
  cbn [append string_all]. now rewrite Hd, andb_true_r.
Qed.

Lemma Contains_middle pre sub rest :
  Strings.Contains (pre ++ sub ++ rest) sub = true.
Proof.
  apply StringsFacts.Contains_app_l.
  destruct (sub ++ rest) eqn:E; cbn [Strings.Contains];
    rewrite <- E, StringsFacts.strip_prefix_self; reflexivity.
Qed.

Lemma Contains_split s sub :
  Strings.Contains s sub = true -> exists pre rest, s = pre ++ sub ++ rest.
Proof.
  induction s as [|c s IH]; cbn [Strings.Contains]; intros H.
  - destruct (Strings.strip_prefix sub "") as [rest|] eqn:E; [|discriminate].
    exists "", rest. exact (StringsFacts.strip_prefix_app _ _ _ E).
  - destruct (Strings.strip_prefix sub (String c s)) as [rest|] eqn:E.
    + exists "", rest. exact (StringsFacts.strip_prefix_app _ _ _ E).
    + destruct (IH H) as (pre & rest & ->). now exists (String c pre), rest.
Qed.

Section RunComplete.

Context {A : Type}.

Lemma run_lit_app l rest cs (k : string -> Regexp.caps -> option A) :
  Regexp.run (Regexp.lit l) (l ++ rest) cs k = k rest cs.
Proof.
  revert cs k. induction l as [|c l IH]; intros cs k;
    cbn [Regexp.lit Regexp.run append]; [reflexivity|].
  now rewrite Ascii.eqb_refl, IH.
Qed.

Lemma run_alt_some r1 r2 s cs (k : string -> Regexp.caps -> option A) :
  Regexp.run r1 s cs k <> None \/ Regexp.run r2 s cs k <> None ->
  Regexp.run (Regexp.Alt r1 r2) s cs k <> None.
Proof.
  intros H. cbn [Regexp.run].
  destruct (Regexp.run r1 s cs k); [discriminate|]. now destruct H.
Qed.

End RunComplete.

(** A start at which the match succeeds makes the search succeed. *)
Lemma search_complete (r : Regexp.re) (pre suf : string) :
  (forall k : string -> Regexp.caps -> option (string * Regexp.caps),
     (forall s cs, k s cs <> None) -> Regexp.run r suf [] k <> None) ->
  Regexp.search r (pre ++ suf) <> None.
Proof.
  intros H.
  assert (Regexp.search r suf <> None) as Hs.
  { destruct suf; cbn [Regexp.search];
      match goal with
      | |- match ?x with _ => _ end <> _ =>
          assert (x <> None) as N by (apply H; discriminate);
          destruct x; [discriminate | now elim N]
      end. }
  induction pre as [|c pre IH]; [exact Hs|].
  cbn [append Regexp.search].
  now destruct (Regexp.run r (String c (pre ++ suf)) [] _).
Qed.

(** ** Distribution *)

Lemma distroRx_matches whole cs :
  Matches distroRx whole cs ->
  exists p1 g p3,
    whole = p1 ++ g ++ p3 /\ cs = [(1%nat, g)] /\ (g = "arch" \/ g = "slack").
Proof.
  unfold distroRx. cbn [Regexp.cat]. intros H.
  inversion H as [| | | |? ? p1 p23 n1 n23 H1 H23| | | | |]; subst.
  inversion H23 as [| | | |? ? p2 p3 n2 n3 H2 H3| | | | |]; subst.
  inversion H2 as [| | | | | | | | |? ? ? n H2']; subst.
  rewrite (Matches_star_any _ _ _ H1), (Matches_star_any _ _ _ H3).
  exists p1, p2, p3.
  inversion H2'; subst.
  - match goal with
    | Ha : Matches _ p2 n |- _ =>
        destruct (Matches_lit "arch" _ _ Ha) as [-> ->]
    end.
    repeat split. now left.
  - match goal with
    | Hs : Matches _ p2 n |- _ =>
        destruct (Matches_lit "slack" _ _ Hs) as [-> ->]
    end.
    repeat split. now right.
Qed.

Lemma distroRx_complete g rest
    (k : string -> Regexp.caps -> option (string * Regexp.caps)) :
  g = "arch" \/ g = "slack" ->
  (forall s cs, k s cs <> None) ->
  Regexp.run distroRx (g ++ rest) [] k <> None.
Proof.
  intros Hg Hk. unfold distroRx. cbn [Regexp.cat].
  change (Regexp.run (Regexp.Seq ?a ?b) ?s ?cs ?k')
    with (Regexp.run a s cs (fun s' cs' => Regexp.run b s' cs' k')).
  apply run_star_some.
  change (Regexp.run (Regexp.Seq ?a ?b) ?s ?cs ?k')
    with (Regexp.run a s cs (fun s' cs' => Regexp.run b s' cs' k')).
  change (Regexp.run (Regexp.Group ?i ?a) ?s ?cs ?k')
    with (Regexp.run a s cs
            (fun s' cs' => k' s' ((i, Regexp.consumed s s') :: cs'))).
  apply run_alt_some.
  destruct Hg as [-> | ->]; [left | right]; rewrite run_lit_app;
    now apply run_star_some.
Qed.

Lemma getDistroSign_no_match (w : World) (uname : string) :
  Output w "uname" ["-a"] = Some uname ->
  Regexp.search distroRx uname = None ->
  getDistroSign w = Panic.
Proof.
  intros Ho Es. unfold getDistroSign, Regexp.FindStringSubmatch.
  now rewrite Ho, Es.
Qed.

Lemma distroRx_no_match (uname : string) :
  Strings.Contains uname "arch" = false ->
  Strings.Contains uname "slack" = false ->
  Regexp.search distroRx uname = None.
Proof.
  intros Ha Hs.
  destruct (Regexp.search distroRx uname) as [[whole cs]|] eqn:Es;
    [|reflexivity].
  destruct (search_sound _ _ _ _ Es) as (pre & rest & Eu & M).
  destruct (distroRx_matches _ _ M) as (p1 & g & p3 & -> & -> & Hg).
  assert (Strings.Contains uname g = true) as Hc.
  { rewrite Eu, <- !StringsFacts.app_assoc, !StringsFacts.app_assoc,
      <- (StringsFacts.app_assoc pre p1).
    apply Contains_middle. }
  destruct Hg as [-> | ->]; congruence.
Qed.

(** X16. Once [uname -a] has run, [getDistroSign] panics exactly when its
    output has neither "arch" nor "slack" in it, and otherwise returns
    the icon of one of the two: the default icon is only returned when the
    command fails. *)
Theorem getDistroSign_outcomes (w : World) (uname : string) :
  Output w "uname" ["-a"] = Some uname ->
  (getDistroSign w = Panic <->
   Strings.Contains uname "arch" = false /\
   Strings.Contains uname "slack" = false) /\
  (getDistroSign w = Panic \/ getDistroSign w = Ret distroSignArch \/
   getDistroSign w = Ret distroSignSlack).
Proof.
  intros Ho. unfold getDistroSign, Regexp.FindStringSubmatch. rewrite Ho.
  destruct (Regexp.search distroRx uname) as [[whole cs]|] eqn:Es.
  - destruct (search_sound _ _ _ _ Es) as (pre & rest & Eu & M).
    destruct (distroRx_matches _ _ M) as (p1 & g & p3 & -> & -> & Hg).
    assert (Strings.Contains uname g = true) as Hc.
    { rewrite Eu, <- !StringsFacts.app_assoc, !StringsFacts.app_assoc,
        <- (StringsFacts.app_assoc pre p1).
      apply Contains_middle. }
    cbn. destruct Hg as [-> | ->]; cbn; split;
      try (right; auto; fail);
      (split; [discriminate | intros [N1 N2]; congruence]).
  - cbn. split; [|now left]. split; [|reflexivity]. intros _.
    split.
    + destruct (Strings.Contains uname "arch") eqn:C; [|reflexivity].
      destruct (Contains_split _ _ C) as (pre & rest & ->).
      exfalso. revert Es. apply search_complete. intros k Hk.
      apply distroRx_complete; [now left | exact Hk].
    + destruct (Strings.Contains uname "slack") eqn:C; [|reflexivity].
      destruct (Contains_split _ _ C) as (pre & rest & ->).
      exfalso. revert Es. apply search_complete. intros k Hk.
      apply distroRx_complete; [now right | exact Hk].
Qed.

Lemma getDistroSign_outcomes_witness :
  getDistroSign
    (with_output absent_world "uname" "Linux host 6.1.0-13-amd64 Debian")
  = Panic.
Proof.
  apply (proj1 (getDistroSign_outcomes
                  (with_output absent_world "uname"
                     "Linux host 6.1.0-13-amd64 Debian")
                  "Linux host 6.1.0-13-amd64 Debian" eq_refl)).
  split; reflexivity.
Defined.

(** ** Time to deplete or charge the battery, whatever acpi prints *)

Lemma Matches_chr c p n : Matches (Regexp.Chr c) p n -> p = String c "" /\ n = [].
Proof. intros H. inversion H; subst. now split. Qed.

Lemma Matches_dd p n :
  Matches dd p n ->
  exists a b, p = String a (String b "") /\ n = [] /\
    Regexp.is_digit a = true /\ Regexp.is_digit b = true.
Proof.
  unfold dd. intros H.
  inversion H as [| | | |? ? p1 p2 n1 n2 H1 H2| | | | |]; subst.
  inversion H1; subst. inversion H2; subst.
  eexists _, _. repeat split; assumption.
Qed.

Lemma timeRx_matches whole cs :
  Matches timeRx whole cs ->
  exists p1 p3 a b d e g h,
    whole = p1 ++ String a (String b (String ":" (String d (String e
              (String ":" (String g (String h p3))))))) /\
    cs = [(1%nat, String a (String b (String ":" (String d (String e
              (String ":" (String g (String h ""))))))))] /\
    Regexp.is_digit a = true /\ Regexp.is_digit b = true /\
    Regexp.is_digit d = true /\ Regexp.is_digit e = true /\
    Regexp.is_digit g = true /\ Regexp.is_digit h = true.
Proof.
  unfold timeRx. cbn [Regexp.cat]. intros H.
  inversion H as [| | | |? ? p1 p23 n1 n23 H1 H23| | | | |]; subst.
  inversion H23 as [| | | |? ? p2 p3 n2 n3 H2 H3| | | | |]; subst.
  inversion H2 as [| | | | | | | | |? ? ? n H2']; subst.
  rewrite (Matches_star_any _ _ _ H1), (Matches_star_any _ _ _ H3).
  inversion H2' as [| | | |? ? q1 q2 m1 m2 G1 G2| | | | |]; subst.
  inversion G2 as [| | | |? ? q3 q4 m3 m4 G3 G4| | | | |]; subst.
  inversion G4 as [| | | |? ? q5 q6 m5 m6 G5 G6| | | | |]; subst.
  inversion G6 as [| | | |? ? q7 q8 m7 m8 G7 G8| | | | |]; subst.
  destruct (Matches_dd _ _ G1) as (a & b & -> & -> & Ha & Hb).
  destruct (Matches_chr _ _ _ G3) as [-> ->].
  destruct (Matches_dd _ _ G5) as (d & e & -> & -> & Hd & He).
  destruct (Matches_chr _ _ _ G7) as [-> ->].
  destruct (Matches_dd _ _ G8) as (g & h & -> & -> & Hg & Hh).
  exists p1, p3, a, b, d, e, g, h. cbn [append app]. repeat split; assumption.
Qed.

Lemma is_time_split s :
  is_time s = true ->
  exists a b d e g h rest,
    s = String a (String b (String ":" (String d (String e
          (String ":" (String g (String h rest))))))) /\
    Regexp.is_digit a = true /\ Regexp.is_digit b = true /\
    Regexp.is_digit d = true /\ Regexp.is_digit e = true /\
    Regexp.is_digit g = true /\ Regexp.is_digit h = true.
Proof.
  unfold is_time.
  destruct s as [|a [|b [|c [|d [|e [|f [|g [|h rest]]]]]]]];
    try discriminate.
  intros H. repeat (apply andb_prop in H; destruct H as [H ?]).
  repeat match goal with
         | E : Ascii.eqb _ _ = true |- _ => apply Ascii.eqb_eq in E; subst
         end.
  exists a, b, d, e, g, h, rest.
  repeat split;
    first [assumption | reflexivity
          | unfold Regexp.is_digit; apply andb_true_intro; now split].
Qed.

Lemma has_time_app pre s : is_time s = true -> has_time (pre ++ s) = true.
Proof.
  intros H. induction pre as [|c pre IH]; cbn [append].
  - destruct s; cbn [has_time]; now rewrite H.
  - cbn [has_time]. rewrite IH. apply orb_true_r.
Qed.

Lemma has_time_split s :
  has_time s = true -> exists pre suf, s = pre ++ suf /\ is_time suf = true.
Proof.
  induction s as [|c s IH]; cbn [has_time]; intros H.
  - rewrite orb_false_r in H. now exists "", "".
  - apply orb_prop in H. destruct H as [H|H].
    + now exists "", (String c s).
    + destruct (IH H) as (pre & suf & -> & T). now exists (String c pre), suf.
Qed.

Section RunChars.

Context {A : Type}.

Lemma run_seq r1 r2 s cs (k : string -> Regexp.caps -> option A) :
  Regexp.run (Regexp.Seq r1 r2) s cs k =
  Regexp.run r1 s cs (fun s' cs' => Regexp.run r2 s' cs' k).
Proof. reflexivity. Qed.

Lemma run_group i r s cs (k : string -> Regexp.caps -> option A) :
  Regexp.run (Regexp.Group i r) s cs k =
  Regexp.run r s cs (fun s' cs' => k s' ((i, Regexp.consumed s s') :: cs')).
Proof. reflexivity. Qed.

Lemma run_digit x s cs (k : string -> Regexp.caps -> option A) :
  Regexp.is_digit x = true ->
  Regexp.run Regexp.Digit (String x s) cs k = k s cs.
Proof. intros H. cbn [Regexp.run]. now rewrite H. Qed.

Lemma run_chr c s cs (k : string -> Regexp.caps -> option A) :
  Regexp.run (Regexp.Chr c) (String c s) cs k = k s cs.
Proof. cbn [Regexp.run]. now rewrite Ascii.eqb_refl. Qed.

End RunChars.

Lemma timeRx_complete s
    (k : string -> Regexp.caps -> option (string * Regexp.caps)) :
  is_time s = true ->
  (forall s' cs, k s' cs <> None) ->
  Regexp.run timeRx s [] k <> None.
Proof.
  intros T Hk.
  destruct (is_time_split s T)
    as (a & b & d & e & g & h & rest & -> & Ha & Hb & Hd & He & Hg & Hh).
  unfold timeRx, dd. cbn [Regexp.cat].
  rewrite run_seq. apply run_star_some.
  rewrite run_seq, run_group.
  rewrite !run_seq, run_digit by assumption.
  rewrite run_digit by assumption. rewrite run_seq, run_chr.
  rewrite !run_seq, run_digit by assumption.
  rewrite run_digit by assumption. rewrite run_seq, run_chr.
  rewrite run_seq, run_digit by assumption.
  rewrite run_digit by assumption.
  now apply run_star_some.
Qed.

(** X17. Once [acpi -b] has run, [updatePowerTime] panics exactly when the
    output has no time (two digits, a colon, two digits, a colon, two
    digits) in it; with one it returns two digits, a colon and two digits,
    and never "unknown". *)
Theorem updatePowerTime_outcomes (w : World) (out : string) :
  Output w "acpi" ["-b"] = Some out ->
  (updatePowerTime w = Panic <-> has_time out = false) /\
  (has_time out = true ->
   exists h1 h2 m1 m2,
     Regexp.is_digit h1 = true /\ Regexp.is_digit h2 = true /\
     Regexp.is_digit m1 = true /\ Regexp.is_digit m2 = true /\
     updatePowerTime w =
       Ret (String h1 (String h2 (String ":" (String m1 (String m2 "")))))).
Proof.
  intros Ho.
  destruct (Regexp.search timeRx out) as [[whole cs]|] eqn:Es.
  - rewrite (updatePowerTime_match w out whole cs Ho Es).
    destruct (search_sound _ _ _ _ Es) as (pre & rest & Eo & M).
    destruct (timeRx_matches _ _ M)
      as (p1 & p3 & a & b & d & e & g & h & -> & -> & Ha & Hb & Hd & He
          & Hg & Hh).
    assert (has_time out = true) as Ht.
    { rewrite Eo, StringsFacts.app_assoc, <- StringsFacts.app_assoc.
      apply has_time_app. cbn [append is_time].
      now rewrite Ha, Hb, Hd, He, Hg, Hh. }
    rewrite Ht. cbn. split; [split; discriminate|].
    intros _. exists a, b, d, e. repeat split; assumption.
  - rewrite (updatePowerTime_no_match w out Ho Es).
    assert (has_time out = false) as Hf.
    { destruct (has_time out) eqn:Ht; [|reflexivity].
      destruct (has_time_split _ Ht) as (pre & suf & -> & T).
      exfalso. revert Es. apply search_complete. intros k Hk.
      now apply timeRx_complete. }
    rewrite Hf. split; [now split | discriminate].
Qed.

Lemma updatePowerTime_outcomes_witness :
  exists h1 h2 m1 m2,
    Regexp.is_digit h1 = true /\ Regexp.is_digit h2 = true /\
    Regexp.is_digit m1 = true /\ Regexp.is_digit m2 = true /\
    updatePowerTime
      (with_output absent_world "acpi"
         "Battery 0: Charging, 55%, 00:48:07 until charged") =
      Ret (String h1 (String h2 (String ":" (String m1 (String m2 ""))))).
Proof.
  apply (proj2 (updatePowerTime_outcomes
                  (with_output absent_world "acpi"
                     "Battery 0: Charging, 55%, 00:48:07 until charged")
                  "Battery 0: Charging, 55%, 00:48:07 until charged"
                  eq_refl)).
  reflexivity.
Defined.

(** ** Volume, whatever pacmd prints *)

Lemma Matches_seq_inv r1 r2 p n :
  Matches (Regexp.Seq r1 r2) p n ->
  exists p1 p2 n1 n2,
    p = p1 ++ p2 /\ n = (n2 ++ n1)%list /\
    Matches r1 p1 n1 /\ Matches r2 p2 n2.
Proof.
  intros H. inversion H as [| | | |? ? p1 p2 n1 n2 H1 H2| | | | |]; subst.
  now exists p1, p2, n1, n2.
Qed.

Lemma Matches_group_inv i r p n :
  Matches (Regexp.Group i r) p n ->
  exists n', n = (i, p) :: n' /\ Matches r p n'.
Proof. intros H. inversion H; subst. eexists; split; eauto. Qed.

Lemma Matches_alt_inv r1 r2 p n :
  Matches (Regexp.Alt r1 r2) p n -> Matches r1 p n \/ Matches r2 p n.
Proof. intros H. inversion H; subst; [now left | now right]. Qed.

Lemma Matches_perc i p n :
  Matches
    (Regexp.Group i
       (Regexp.Seq (Regexp.Star Regexp.Digit) (Regexp.Chr "%"))) p n ->
  exists ds,
    p = ds ++ "%" /\ n = [(i, ds ++ "%")] /\
    string_all Regexp.is_digit ds = true.
Proof.
  intros H. apply Matches_group_inv in H. destruct H as (n' & -> & H).
  apply Matches_seq_inv in H. destruct H as (ds & q & n1 & n2 & -> & -> & D & C).
  apply Matches_star_digit in D. destruct D as [-> D].
  apply Matches_chr in C. destruct C as [-> ->].
  now exists ds.
Qed.

Lemma Contains_prefix sub rest : Strings.Contains (sub ++ rest) sub = true.
Proof. exact (Contains_middle "" sub rest). Qed.

Lemma Contains_app_r s t sub :
  Strings.Contains s sub = true -> Strings.Contains (s ++ t) sub = true.
Proof.
  intros H. destruct (Contains_split _ _ H) as (pre & rest & ->).
  rewrite !StringsFacts.app_assoc. apply Contains_middle.
Qed.

Lemma mutedRx_matches whole cs :
  Matches mutedRx whole cs ->
  exists ds1 ds2 g3,
    cs = [(3%nat, g3); (2%nat, ds2 ++ "%"); (1%nat, ds1 ++ "%")] /\
    string_all Regexp.is_digit ds1 = true /\
    string_all Regexp.is_digit ds2 = true /\
    (g3 = "yes" \/ g3 = "no") /\
    Strings.Contains whole "volume: front-left: " = true /\
    Strings.Contains whole "front-right: " = true /\
    Strings.Contains whole "muted: " = true.
Proof.
  unfold mutedRx. cbv zeta. cbn [Regexp.cat]. intros H.
  repeat match goal with
         | M : Matches (Regexp.Seq _ _) _ _ |- _ =>
             apply Matches_seq_inv in M;
             destruct M as (? & ? & ? & ? & -> & -> & ? & M)
         end.
  repeat match goal with
         | M : Matches (Regexp.Star (Regexp.Any _)) _ _ |- _ =>
             apply Matches_star_any in M; subst
         | M : Matches (Regexp.lit _) _ _ |- _ =>
             apply Matches_lit in M; destruct M as [-> ->]
         | M : Matches (Regexp.Chr _) _ _ |- _ =>
             apply Matches_chr in M; destruct M as [-> ->]
         | M : Matches (Regexp.Group _ (Regexp.Seq _ _)) _ _ |- _ =>
             apply Matches_perc in M; destruct M as (? & -> & -> & ?)
         end.
  match goal with
  | M : Matches (Regexp.Group 3 _) _ _ |- _ =>
      apply Matches_group_inv in M; destruct M as (n3 & -> & M);
      apply Matches_alt_inv in M;
      destruct M as [M|M]; apply Matches_lit in M; destruct M as [-> ->]
  end;
    eexists _, _, _; cbn [app];
    (split; [reflexivity|]);
    (split; [eassumption|]); (split; [eassumption|]);
    (split; [tauto|]);
    repeat split;
    repeat first [apply Contains_prefix | apply StringsFacts.Contains_app_l].
Qed.

(** X18. Once [pacmd list-sinks] has run, [updateVolume] panics when the
    output lacks one of the three texts the expression looks for (no sink
    at all, say); when it does not panic it returns the muted or the
    volume icon, a blank, digits (possibly none) and a percent sign. *)
Theorem updateVolume_outcomes (w : World) (out : string) :
  Output w "pacmd" ["list-sinks"] = Some out ->
  (Strings.Contains out "volume: front-left: " = false \/
   Strings.Contains out "front-right: " = false \/
   Strings.Contains out "muted: " = false ->
   updateVolume w = Panic) /\
  (updateVolume w = Panic \/
   exists ds,
     string_all Regexp.is_digit ds = true /\
     (updateVolume w = Ret (volSign ++ " " ++ ds ++ "%") \/
      updateVolume w = Ret (mutedSign ++ " " ++ ds ++ "%"))).
Proof.
  intros Ho. unfold updateVolume, Regexp.FindStringSubmatch. rewrite Ho.
  destruct (Regexp.search mutedRx out) as [[whole cs]|] eqn:Es.
  - destruct (search_sound _ _ _ _ Es) as (pre & rest & -> & M).
    destruct (mutedRx_matches _ _ M)
      as (ds1 & ds2 & g3 & -> & D1 & D2 & Hg & C1 & C2 & C3).
    split.
    + intros [N|[N|N]]; exfalso;
        rewrite StringsFacts.Contains_app_l in N
          by (apply Contains_app_r; assumption);
        discriminate N.
    + right. exists ds1. split; [exact D1|].
      destruct Hg as [-> | ->]; cbn; [now right | now left].
  - split; [reflexivity | now left].
Qed.

Lemma updateVolume_outcomes_witness :
  updateVolume (with_output absent_world "pacmd" "0 sink(s) available.")
  = Panic.
Proof.
  apply (proj1 (updateVolume_outcomes
                  (with_output absent_world "pacmd" "0 sink(s) available.")
                  "0 sink(s) available." eq_refl)).
  right. right. reflexivity.
Defined.

(** ** The tick and the loop *)



(** X20. A start on a system whose [uname -a] names neither "arch" nor "slack"
    panics before the first tick: nothing is ever published. *)
Theorem main_startup_panic (sc : Scanf) (w0 : World) (ws : list World)
    (uname : string) :
  Output w0 "uname" ["-a"] = Some uname ->
  Strings.Contains uname "arch" = false ->
  Strings.Contains uname "slack" = false ->
  main sc w0 ws = ([], Panic).
Proof.
  intros Ho Ha Hs. unfold main.
  now rewrite (getDistroSign_no_match w0 uname Ho
                 (distroRx_no_match uname Ha Hs)).
Qed.

Lemma main_startup_panic_witness :
  main GoScanf.instance
    (with_output absent_world "uname" "Linux host 6.1.0-13-amd64 Debian")
    [absent_world; absent_world]
  = ([], Panic).
Proof.
  apply (main_startup_panic GoScanf.instance
           (with_output absent_world "uname"
              "Linux host 6.1.0-13-amd64 Debian")
           [absent_world; absent_world]
           "Linux host 6.1.0-13-amd64 Debian"); reflexivity.
Defined.

Lemma tick_all_absent (sc : Scanf) (w : World) (distroSign : string)
    (st : NetState) :
  all_absent w ->
  tick sc w distroSign st =
    Ret (mkTick (fallback_line w distroSign) st (sleep_duration (Now w))).
Proof.
  intros (Hvol & Hwifi & Hnet & Hcpu & Htemp & Hmem & Hpow & Hacpi & Hkbd).
  unfold tick, status, fallback_line, fallback_status.
  unfold updateVolume, updateWifi, updateNetUse, updateCPUUse,
    updateCPUTemp, updateMemUse, updatePower, updatePowerTime,
    updateKeyboard.
  rewrite Hvol, Hwifi, Hnet, Hcpu, Htemp, Hmem, Hpow, Hacpi, Hkbd.
  reflexivity.
Qed.

(** X21. With nothing to read and nothing to run, [uname] included, the
    program keeps going: every tick publishes its line of fallbacks, and
    the carried counters stay at 0. *)
Theorem main_all_absent (sc : Scanf) (w0 : World) (ws : list World) :
  Output w0 "uname" ["-a"] = None ->
  Forall all_absent ws ->
  main sc w0 ws =
    (map (fun w => fallback_line w distroSignDefault) ws, Ret initial_state).
Proof.
  intros Hu Hw. unfold main, getDistroSign. rewrite Hu.
  generalize initial_state as st.
  induction Hw as [|w ws Ha _ IH]; intros st; [reflexivity|].
  cbn [loop map]. rewrite (tick_all_absent sc w _ st Ha). cbn [state line].
  now rewrite IH.
Qed.

Lemma main_all_absent_witness :
  main GoScanf.instance absent_world [absent_world; absent_world] =
    (map (fun w => fallback_line w distroSignDefault)
       [absent_world; absent_world],
     Ret initial_state).
Proof.
  apply (main_all_absent GoScanf.instance absent_world
           [absent_world; absent_world]).
  - reflexivity.
  - repeat constructor.
Defined.

(** ** [colored] *)

(** X22. [colored] adds no escape: whatever the percentage, at or above 100,
    at or above 70 or below, it prints the icon and the percentage
    right-justified in three bytes, so that from 0 to 999 the length is
    that of the icon plus three. *)
Theorem colored_plain (icon : string) (percentage : Z) :
  colored icon percentage = icon ++ Fmt.d 3 percentage /\
  (0 <= percentage < 1000 ->
   String.length (colored icon percentage) = (String.length icon + 3)%nat).
Proof.
  assert (colored icon percentage = icon ++ Fmt.d 3 percentage) as E.
  { unfold colored.
    destruct (percentage >=? 100); [reflexivity|].
    now destruct (percentage >=? 70). }
  split; [exact E|]. intros H.
  now rewrite E, StringsFacts.length_app, d3_length.
Qed.

Lemma colored_plain_witness :
  String.length (colored cpuSign 85) = (String.length cpuSign + 3)%nat.
Proof.
  apply (proj2 (colored_plain cpuSign 85)). lia.
Defined.

(** ** [TrimSpace] beyond ASCII *)

Example TrimSpace_nbsp :
  Strings.TrimSpace
    (Strings.bytes [0xe2; 0x80; 0x83]%N ++ "5000"
       ++ Strings.bytes [0xc2; 0xa0]%N ++ nl)
  = "5000".
Proof. vm_compute. reflexivity. Qed.

(** A lead byte without its continuation is no white space. *)
Example TrimSpace_broken_rune :
  Strings.TrimSpace (" " ++ Strings.bytes [0xc2]%N ++ " ")
  = Strings.bytes [0xc2]%N.
Proof. vm_compute. reflexivity. Qed.

Example readval_nbsp :
  readval
    (with_file absent_world (powerSupply ++ "BAT0/energy_full")
       ("5000" ++ Strings.bytes [0xc2; 0xa0]%N ++ nl))
    "BAT0" "full"
  = 5000.
Proof. vm_compute. reflexivity. Qed.
